(** * SCORM package generator: a shallow embedding of [scorm_generator.py]

    The Python generator (filename sanitizer, colour derivation, launcher
    page parameters, archive assembly, form validation) and the JavaScript
    it emits into [index.html] (time formatting and parsing, restore,
    mark-complete) are transcribed as Rocq functions.

    Text is a list of Unicode code points, as a Python [str] is.  Integers
    are [Z].  The counters of the emitted script are whole seconds, which
    an IEEE double holds exactly below 2^53, and are [Z] too; where the
    script reads a number from text, the rounding to the nearest double is
    written out. *)

From Stdlib Require Import String Ascii ZArith NArith List Bool Lia.
Import ListNotations.

Set Implicit Arguments.

(** ** Text *)

Definition uchar := N.
Definition ustring := list uchar.

(** An ASCII literal of the source, as code points. *)
Definition lit (s : string) : ustring :=
  map N_of_ascii (list_ascii_of_string s).
Arguments lit s%_string.

Definition in_range (lo hi c : N) : bool := ((lo <=? c) && (c <=? hi))%N.

Fixpoint ustring_eqb (a b : ustring) : bool :=
  match a, b with
  | [], [] => true
  | x :: a', y :: b' => (x =? y)%N && ustring_eqb a' b'
  | _, _ => false
  end.

(** [str.startswith(prefix)] *)
Fixpoint startswith (pre s : ustring) : bool :=
  match pre, s with
  | [], _ => true
  | p :: pre', c :: s' => (p =? c)%N && startswith pre' s'
  | _ :: _, [] => false
  end.

(** Python's [str.isspace] on one code point, which is also what [\s]
    matches in a [str] pattern and what [str.strip()] removes. *)
Definition py_isspace (c : uchar) : bool :=
  in_range 0x09 0x0D c || in_range 0x1C 0x20 c
  || (c =? 0x85)%N || (c =? 0xA0)%N || (c =? 0x1680)%N
  || in_range 0x2000 0x200A c || in_range 0x2028 0x2029 c
  || (c =? 0x202F)%N || (c =? 0x205F)%N || (c =? 0x3000)%N.

(** [str.isalnum] on the Latin-1 block. *)
Definition latin1_isalnum (c : uchar) : bool :=
  in_range 0x30 0x39 c || in_range 0x41 0x5A c || in_range 0x61 0x7A c
  || (c =? 0xAA)%N || in_range 0xB2 0xB3 c || (c =? 0xB5)%N
  || in_range 0xB9 0xBA c || in_range 0xBC 0xBE c
  || in_range 0xC0 0xD6 c || in_range 0xD8 0xF6 c || in_range 0xF8 0xFF c.

(** Above Latin-1 the alphanumeric classification and the decimal digits
    of other scripts are the interpreter's Unicode database, which is no
    part of this repository: an interface. *)
Class UnicodeData := {
  unicode_isalnum : uchar -> bool;
  unicode_decimal : uchar -> option N
}.

(** An instance that knows no letters or digits above Latin-1. *)
Definition Latin1Only : UnicodeData :=
  {| unicode_isalnum := fun _ => false; unicode_decimal := fun _ => None |}.

Fixpoint dropwhile (p : uchar -> bool) (s : ustring) : ustring :=
  match s with
  | [] => []
  | c :: t => if p c then dropwhile p t else s
  end.

Definition lstrip_ws (s : ustring) : ustring := dropwhile py_isspace s.
Definition rstrip_ws (s : ustring) : ustring := rev (dropwhile py_isspace (rev s)).

(** [str.strip()] *)
Definition strip (s : ustring) : ustring := rstrip_ws (lstrip_ws s).

(** ** Regular-expression substitution, for the two patterns of the source *)

(** [re.sub(r'[cls]', repl, s)]: every character of the class is a match. *)
Fixpoint re_sub_class (cls : uchar -> bool) (repl s : ustring) : ustring :=
  match s with
  | [] => []
  | c :: t => if cls c then repl ++ re_sub_class cls repl t
              else c :: re_sub_class cls repl t
  end.

(** [re.sub(r'[cls]+', repl, s)]: the scan is leftmost and greedy, so a
    match is a maximal run; [in_match] tells that the scan is inside one. *)
Fixpoint re_sub_class_plus_scan (cls : uchar -> bool) (repl : ustring)
         (in_match : bool) (s : ustring) : ustring :=
  match s with
  | [] => []
  | c :: t =>
      if cls c then
        if in_match then re_sub_class_plus_scan cls repl true t
        else repl ++ re_sub_class_plus_scan cls repl true t
      else c :: re_sub_class_plus_scan cls repl false t
  end.

Definition re_sub_class_plus (cls : uchar -> bool) (repl s : ustring) : ustring :=
  re_sub_class_plus_scan cls repl false s.

Definition hyphen : uchar := 45%N.
Definition underscore : uchar := 95%N.

Section Sanitizer.
Context {U : UnicodeData}.

Definition py_isalnum (c : uchar) : bool :=
  if (c <? 0x100)%N then latin1_isalnum c else unicode_isalnum c.

(** [\w] in a [str] pattern: alphanumeric or underscore. *)
Definition re_word (c : uchar) : bool := py_isalnum c || (c =? underscore)%N.

(** The negated class [[^\w\s-]]. *)
Definition not_word_space_hyphen (c : uchar) : bool :=
  negb (re_word c || py_isspace c || (c =? hyphen)%N).

Definition sanitize_filename (name : ustring) : ustring :=
  let safe := re_sub_class not_word_space_hyphen [] name in
  let safe := re_sub_class_plus py_isspace (lit "_") safe in
  firstn 50 safe.

(** *** The sanitizer in the specification's words *)

Definition spec_retained (c : uchar) : bool :=
  re_word c || py_isspace c || (c =? hyphen)%N.

Definition starts_without_space (s : ustring) : Prop :=
  match s with
  | [] => True
  | c :: _ => py_isspace c = false
  end.

(** [spec_runs_collapsed s r]: [r] is [s] with each maximal run of
    whitespace replaced by a single underscore. *)
Inductive spec_runs_collapsed : ustring -> ustring -> Prop :=
| collapsed_nil : spec_runs_collapsed [] []
| collapsed_char c s r :
    py_isspace c = false ->
    spec_runs_collapsed s r ->
    spec_runs_collapsed (c :: s) (c :: r)
| collapsed_run ws s r :
    ws <> [] ->
    Forall (fun c => py_isspace c = true) ws ->
    starts_without_space s ->
    spec_runs_collapsed s r ->
    spec_runs_collapsed (ws ++ s) (underscore :: r).

Definition spec_sanitized (name result : ustring) : Prop :=
  exists collapsed,
    spec_runs_collapsed (filter spec_retained name) collapsed
    /\ result = firstn 50 collapsed.
End Sanitizer.


(** ** Numbers as text *)

Definition zero_char : uchar := 48%N.

(** The character of a digit below 16, lowercase as ['x'] formatting gives. *)
Definition digit_char (d : N) : uchar :=
  (if d <? 10 then 48 + d else 87 + d)%N.

Fixpoint N_digits_fuel (fuel : nat) (base n : N) : ustring :=
  match fuel with
  | O => []
  | S f =>
      (if (n <? base)%N then [] else N_digits_fuel f base (n / base)%N)
      ++ [digit_char (n mod base)%N]
  end.

(** The digits of [n] in [base], most significant first, no leading zero. *)
Definition N_digits (base n : N) : ustring :=
  N_digits_fuel (S (N.to_nat (N.size n))) base n.

Definition minus_sign : uchar := 45%N.
Definition plus_sign : uchar := 43%N.

(** Python's [str(i)] and JavaScript's [String(i)] on an integer. *)
Definition Z_to_text (base : N) (z : Z) : ustring :=
  if (z <? 0)%Z then minus_sign :: N_digits base (Z.to_N (- z))
  else N_digits base (Z.to_N z).

Definition str_of_int (z : Z) : ustring := Z_to_text 10 z.

(** Left padding with ['0'] up to [width]: [padStart(width, '0')]. *)
Definition pad_zeros (width : nat) (s : ustring) : ustring :=
  repeat zero_char (width - length s) ++ s.

(** The format spec [02x]: lowercase hexadecimal, zero-filled to width 2,
    the sign counted in the width and kept in front of the zeros. *)
Definition format_02x (v : Z) : ustring :=
  if (v <? 0)%Z then minus_sign :: pad_zeros 1 (N_digits 16 (Z.to_N (- v)))
  else pad_zeros 2 (N_digits 16 (Z.to_N v)).

Definition hex_value (c : uchar) : option Z :=
  if in_range 48 57 c then Some (Z.of_N c - 48)%Z
  else if in_range 97 102 c then Some (Z.of_N c - 87)%Z
  else if in_range 65 70 c then Some (Z.of_N c - 55)%Z
  else None.

Definition is_hex_digit (c : uchar) : bool :=
  match hex_value c with Some _ => true | None => false end.

(** Hexadecimal digits, single underscores allowed between two digits. *)
Fixpoint hex_digits_more (acc : Z) (s : ustring) : option Z :=
  match s with
  | [] => Some acc
  | c :: t =>
      if (c =? underscore)%N then
        match t with
        | d :: t' =>
            match hex_value d with
            | Some v => hex_digits_more (16 * acc + v)%Z t'
            | None => None
            end
        | [] => None
        end
      else
        match hex_value c with
        | Some v => hex_digits_more (16 * acc + v)%Z t
        | None => None
        end
  end.

Definition hex_digits (s : ustring) : option Z :=
  match s with
  | [] => None
  | c :: t =>
      match hex_value c with
      | Some v => hex_digits_more v t
      | None => None
      end
  end.

(** After the sign: an optional [0x] or [0X], one underscore allowed
    behind it, then the digits. *)
Definition hex_unsigned (s : ustring) : option Z :=
  match s with
  | 48%N :: x :: t =>
      if (x =? 120)%N || (x =? 88)%N then
        match t with
        | u :: t' => if (u =? underscore)%N then hex_digits t' else hex_digits t
        | [] => None
        end
      else hex_digits s
  | _ => hex_digits s
  end.

(** C's [isspace], which [int] strips from both ends. *)
Definition c_isspace (c : uchar) : bool := in_range 0x09 0x0D c || (c =? 0x20)%N.

Definition strip_c (s : ustring) : ustring :=
  rev (dropwhile c_isspace (rev (dropwhile c_isspace s))).

Definition is_ascii (s : ustring) : bool := forallb (fun c => (c <? 128)%N) s.

Fixpoint option_all (l : list (option uchar)) : option ustring :=
  match l with
  | [] => Some []
  | None :: _ => None
  | Some c :: t => option_map (cons c) (option_all t)
  end.

Section IntOfText.
Context {U : UnicodeData}.

(** What [int] does to text that is not pure ASCII before reading it:
    Unicode whitespace becomes a blank, a decimal digit of any script its
    ASCII digit, any other character above ASCII is an error. *)
Definition to_ascii_char (c : uchar) : option uchar :=
  if (c <? 127)%N then Some c
  else if py_isspace c then Some 32%N
  else if (c <? 0x100)%N then None
  else option_map (fun d => (48 + d)%N) (unicode_decimal c).

Definition decimal_and_space_to_ascii (s : ustring) : option ustring :=
  if is_ascii s then Some s else option_all (map to_ascii_char s).

(** [int(s, 16)]; [None] is [ValueError]. *)
Definition int_base16 (s : ustring) : option Z :=
  match decimal_and_space_to_ascii s with
  | None => None
  | Some a =>
      match strip_c a with
      | c :: t =>
          if (c =? minus_sign)%N then option_map Z.opp (hex_unsigned t)
          else if (c =? plus_sign)%N then hex_unsigned t
          else hex_unsigned (c :: t)
      | [] => None
      end
  end.
End IntOfText.

(** The slice [s[i:j]] for [0 <= i <= j]. *)
Definition slice (i j : nat) (s : ustring) : ustring :=
  firstn (j - i) (skipn i s).

Definition hash : uchar := 35%N.

(** [s.lstrip('#')] *)
Definition lstrip_hash (s : ustring) : ustring :=
  dropwhile (fun c => (c =? hash)%N) s.

(** ** The launcher page: colour derivation and the minimum-time gate *)

Section Launcher.
Context {U : UnicodeData}.

(** The hover shade [darker] of [generate_html]; [None] when an [int(...)]
    raises. *)
Definition darker_of (primary_color : ustring) : option ustring :=
  let hex_color := lstrip_hash primary_color in
  match int_base16 (slice 0 2 hex_color),
        int_base16 (slice 2 4 hex_color),
        int_base16 (slice 4 6 hex_color) with
  | Some r, Some g, Some b =>
      Some (hash :: format_02x (Z.max 0 (r - 40))
                 ++ format_02x (Z.max 0 (g - 40))
                 ++ format_02x (Z.max 0 (b - 40)))
  | _, _, _ => None
  end.

(** [min_time_js] of [generate_html]. *)
Definition min_time_js_of (require_min_time : bool) (min_time_minutes : Z) : ustring :=
  if require_min_time then
    let min_time_seconds := (min_time_minutes * 60)%Z in
    lit "var MIN_TIME_REQUIRED = " ++ str_of_int min_time_seconds ++ lit ";"
  else [].

(** [min_time_check] of [generate_html]. *)
Definition min_time_check_of (require_min_time : bool) (min_time_minutes : Z) : ustring :=
  if require_min_time then
    lit "
            if (totalSeconds < MIN_TIME_REQUIRED) {
                var remaining = MIN_TIME_REQUIRED - totalSeconds;
                alert('You need to spend at least " ++ str_of_int min_time_minutes
    ++ lit " minutes on this course before marking it complete.\n\nTime remaining: ' + formatTime(remaining));
                return;
            }"
  else [].

(** What the check of [markComplete] tests and tells: the constant
    [MIN_TIME_REQUIRED] and the number of minutes its alert quotes. *)
Record Gate := { MIN_TIME_REQUIRED : Z; gate_minutes : Z }.

(** The check that the arguments of [generate_html] ask for. *)

Definition compiled_gate (require_min_time : bool) (min_time_minutes : Z) : option Gate :=
  if require_min_time then
    Some {| MIN_TIME_REQUIRED := min_time_minutes * 60; gate_minutes := min_time_minutes |}
  else None.

Definition dquote : uchar := 34%N.

(** The values substituted into the page template; the text between the
    holes is constant. *)
Record LauncherPage := {
  page_title : ustring;
  page_primary_color : ustring;
  page_darker : ustring;
  page_subtitle : ustring;
  page_additional_info : ustring;
  page_courseURL : ustring;
  page_EXPECTED_DURATION : Z;
  page_min_time_js : ustring;
  page_min_time_check : ustring
}.

Definition generate_html (course_title course_url primary_color : ustring)
           (expected_duration : Z) (require_min_time : bool) (min_time_minutes : Z)
           (subtitle additional_info : ustring) : option LauncherPage :=
  match darker_of primary_color with
  | None => None
  | Some darker =>
      Some {| page_title := course_title;
              page_primary_color := primary_color;
              page_darker := darker;
              page_subtitle :=
                match subtitle with
                | [] => lit "External Course with Time Tracking"
                | _ => subtitle
                end;
              page_additional_info :=
                match additional_info with
                | [] => []
                | _ => lit "<div class=" ++ [dquote] ++ lit "additional-info"
                       ++ [dquote] ++ lit ">" ++ additional_info ++ lit "</div>"
                end;
              page_courseURL := course_url;
              page_EXPECTED_DURATION := expected_duration * 60;
              page_min_time_js := min_time_js_of require_min_time min_time_minutes;
              page_min_time_check := min_time_check_of require_min_time min_time_minutes |}
  end.

End Launcher.

(** ** Manifest and archive *)

Record ManifestDoc := {
  manifest_identifier : ustring;
  organization_title : ustring;
  item_title : ustring;
  masteryscore : Z
}.

Definition generate_manifest (course_id course_title : ustring) (mastery_score : Z)
  : ManifestDoc :=
  {| manifest_identifier := course_id;
     organization_title := course_title;
     item_title := course_title;
     masteryscore := mastery_score |}.

Inductive Document :=
| ManifestXml (m : ManifestDoc)
| ScormApiJs
| IndexHtml (p : LauncherPage).

(** [generate_scorm_api]: a constant text. *)
Definition generate_scorm_api : Document := ScormApiJs.

Inductive Compression := ZIP_STORED | ZIP_DEFLATED.

Record ZipInfo := {
  filename : ustring;
  compress_type : Compression;
  payload : Document
}.

Record ZipFile := {
  compression : Compression;
  filelist : list ZipInfo
}.

Definition ZipFile_new (c : Compression) : ZipFile :=
  {| compression := c; filelist := [] |}.

(** [ZipFile.writestr(name, data)]: one more member, compressed with the
    method the archive was opened with. *)
Definition writestr (z : ZipFile) (name : ustring) (data : Document) : ZipFile :=
  {| compression := compression z;
     filelist := filelist z
                 ++ [ {| filename := name; compress_type := compression z;
                         payload := data |} ] |}.

Section Package.
Context {U : UnicodeData}.

(** [None] is the exception [generate_html] lets through. *)
Definition create_scorm_package (course_title course_url primary_color : ustring)
           (mastery_score expected_duration : Z) (require_min_time : bool)
           (min_time_minutes : Z) (subtitle additional_info : ustring)
  : option (list ZipInfo) :=
  let course_id := sanitize_filename course_title in
  let zip_file := ZipFile_new ZIP_DEFLATED in
  let manifest := generate_manifest course_id course_title mastery_score in
  let zip_file := writestr zip_file (lit "imsmanifest.xml") (ManifestXml manifest) in
  let scorm_api := generate_scorm_api in
  let zip_file := writestr zip_file (lit "scormapi.js") scorm_api in
  match generate_html course_title course_url primary_color expected_duration
                      require_min_time min_time_minutes subtitle additional_info with
  | None => None
  | Some html =>
      let zip_file := writestr zip_file (lit "index.html") (IndexHtml html) in
      Some (filelist zip_file)
  end.
End Package.

(** ** The form and its "Generate" button *)

(** The arguments of [create_scorm_package]. *)
Record CourseSpec := {
  spec_title : ustring;
  spec_url : ustring;
  spec_primary_color : ustring;
  spec_mastery_score : Z;
  spec_expected_duration : Z;
  spec_require_min_time : bool;
  spec_min_time_minutes : Z;
  spec_subtitle : ustring;
  spec_additional_info : ustring
}.

(** The widgets' values when the button is pressed. *)
Record Form := {
  course_title : ustring;
  subtitle : ustring;
  additional_info : ustring;
  course_url : ustring;
  primary_color : ustring;
  expected_duration : Z;
  mastery_score : Z;
  require_min_time : bool;
  min_time_input : Z
}.

(** The minimum-time widget exists only when the box is ticked. *)
Definition min_time_minutes (f : Form) : Z :=
  if require_min_time f then min_time_input f else 0%Z.

Definition is_empty (s : ustring) : bool :=
  match s with [] => true | _ => false end.

Definition has_scheme (url : ustring) : bool :=
  startswith (lit "http://") url || startswith (lit "https://") url.

Definition title_required : ustring := lit "Course title is required".
Definition url_required : ustring := lit "Course URL is required".
Definition url_scheme_required : ustring :=
  lit "Course URL must start with http:// or https://".

(** The validation block: the list [errors] after the two [if]s.  The
    emptiness tests trim; the scheme test reads the text as entered. *)
Definition validate (title url : ustring) : list ustring :=
  let errors := [] in
  let errors :=
    if is_empty (strip title) then errors ++ [title_required] else errors in
  let errors :=
    if is_empty (strip url) then errors ++ [url_required]
    else if negb (has_scheme url) then errors ++ [url_scheme_required]
    else errors in
  errors.

(** The specification passed down when validation succeeds. *)
Definition trimmed_spec (f : Form) : CourseSpec :=
  {| spec_title := strip (course_title f);
     spec_url := strip (course_url f);
     spec_primary_color := primary_color f;
     spec_mastery_score := mastery_score f;
     spec_expected_duration := expected_duration f;
     spec_require_min_time := require_min_time f;
     spec_min_time_minutes := min_time_minutes f;
     spec_subtitle := strip (subtitle f);
     spec_additional_info := strip (additional_info f) |}.

Inductive Outcome :=
| ErrorsShown (errors : list ustring)
| PackageOffered (zip_data : list ZipInfo) (file_name : ustring)
| GenerationFailed.

Section Button.
Context {U : UnicodeData}.

Definition package_of (c : CourseSpec) : option (list ZipInfo) :=
  create_scorm_package (spec_title c) (spec_url c) (spec_primary_color c)
    (spec_mastery_score c) (spec_expected_duration c)
    (spec_require_min_time c) (spec_min_time_minutes c)
    (spec_subtitle c) (spec_additional_info c).

Definition on_generate (f : Form) : Outcome :=
  match validate (course_title f) (course_url f) with
  | (_ :: _) as errors => ErrorsShown errors
  | [] =>
      match package_of (trimmed_spec f) with
      | Some zip_data =>
          PackageOffered zip_data
            (sanitize_filename (course_title f) ++ lit "_SCORM.zip")
      | None => GenerationFailed
      end
  end.
End Button.

(** *** A valid course specification, as the data model words it *)

Definition is_hex_color (c : ustring) : bool :=
  match c with
  | [h; d1; d2; d3; d4; d5; d6] =>
      (h =? hash)%N && forallb is_hex_digit [d1; d2; d3; d4; d5; d6]
  | _ => false
  end.

Definition valid_CourseSpec (c : CourseSpec) : Prop :=
  spec_title c <> []
  /\ has_scheme (spec_url c) = true
  /\ is_hex_color (spec_primary_color c) = true
  /\ (5 <= spec_expected_duration c <= 480)%Z
  /\ (0 <= spec_mastery_score c <= 100)%Z
  /\ (if spec_require_min_time c then (1 <= spec_min_time_minutes c <= 480)%Z
      else spec_min_time_minutes c = 0%Z).

(** ** The script of the launcher page *)

Module Script.

(** Whitespace and line terminators that [parseInt] and [parseFloat]
    skip in front. *)
Definition js_isspace (c : uchar) : bool :=
  in_range 0x09 0x0D c || (c =? 0x20)%N || (c =? 0xA0)%N || (c =? 0x1680)%N
  || in_range 0x2000 0x200A c || in_range 0x2028 0x2029 c
  || (c =? 0x202F)%N || (c =? 0x205F)%N || (c =? 0x3000)%N || (c =? 0xFEFF)%N.

Definition is_digit (c : uchar) : bool := in_range 48 57 c.

(** The longest prefix of decimal digits, and what follows it. *)
Fixpoint span_digits (s : ustring) : ustring * ustring :=
  match s with
  | c :: t =>
      if is_digit c then let (d, r) := span_digits t in (c :: d, r)
      else ([], s)
  | [] => ([], [])
  end.

Definition digits_value (d : ustring) : Z :=
  fold_left (fun a c => (10 * a + (Z.of_N c - 48))%Z) d 0%Z.

(** An optional sign: [true] for a minus. *)
Definition take_sign (s : ustring) : bool * ustring :=
  match s with
  | c :: t =>
      if (c =? minus_sign)%N then (true, t)
      else if (c =? plus_sign)%N then (false, t)
      else (false, s)
  | [] => (false, [])
  end.

Definition signed (neg : bool) (z : Z) : Z := if neg then (- z)%Z else z.

(** *** Numbers of the script

    A number of the script is an IEEE double.  What the parser needs of
    them is written out on integers: a finite double is a mantissa times a
    power of two, and the double nearest to a quotient is found by rounding
    to 53 significant bits, ties to the even mantissa.  Values from 2^1024
    on, which the script holds as [Infinity], are outside the model. *)

Record Double := { mantissa : Z; exponent : Z }.

(** The integer nearest to [c / d], ties to even, for [d > 0]. *)
Definition round_half_even (c d : Z) : Z :=
  let q := (c / d)%Z in
  let r := (c mod d)%Z in
  if (2 * r <? d)%Z then q
  else if (d <? 2 * r)%Z then (q + 1)%Z
  else if Z.even q then q else (q + 1)%Z.

(** [2 ^ t * b <= a], whatever the sign of [t]. *)
Definition pow2_le (t b a : Z) : bool :=
  if (0 <=? t)%Z then (2 ^ t * b <=? a)%Z else (b <=? 2 ^ (- t) * a)%Z.

(** The binary exponent of [a / b]: the [t] with
    [2 ^ t <= a / b < 2 ^ (t + 1)], for [a, b > 0]. *)
Definition log2_ratio (a b : Z) : Z :=
  let t := (Z.log2 a - Z.log2 b)%Z in
  if pow2_le t b a then t else (t - 1)%Z.

(** The double nearest to [a / b], for [b > 0]: 53 bits of mantissa, and
    no exponent below that of the subnormal doubles. *)
Definition nearest_double (a b : Z) : Double :=
  if (a =? 0)%Z then {| mantissa := 0; exponent := 0 |}
  else
    let g := Z.max (log2_ratio (Z.abs a) b - 52) (-1074) in
    {| mantissa := if (0 <=? g)%Z then round_half_even a (b * 2 ^ g)
                   else round_half_even (a * 2 ^ (- g)) b;
       exponent := g |}.

(** [Math.floor] *)
Definition Math_floor (d : Double) : Z :=
  if (0 <=? exponent d)%Z then (mantissa d * 2 ^ exponent d)%Z
  else (mantissa d / 2 ^ (- exponent d))%Z.

(** A whole number as the script holds it: rounded to a double. *)
Definition round_int (n : Z) : Z := Math_floor (nearest_double n 1).

(** [parseInt(s, 10)]; [None] is [NaN].  All the digits count and the
    value is rounded once, as the engines in use do. *)
Definition parseInt10 (s : ustring) : option Z :=
  let (neg, s1) := take_sign (dropwhile js_isspace s) in
  match span_digits s1 with
  | ([], _) => None
  | (d, _) => Some (round_int (signed neg (digits_value d)))
  end.

(** A decimal literal: [dec_mantissa * 10 ^ dec_exponent]. *)
Record Decimal := { dec_mantissa : Z; dec_exponent : Z }.

(** The exponent part [e], sign, digits; absent or incomplete, it is not
    read and counts for 0. *)
Definition exponent_part (s : ustring) : Z :=
  match s with
  | c :: t =>
      if (c =? 101)%N || (c =? 69)%N then
        let (neg, t1) := take_sign t in
        match span_digits t1 with
        | ([], _) => 0%Z
        | (d, _) => signed neg (digits_value d)
        end
      else 0%Z
  | [] => 0%Z
  end.

(** The decimal literal [parseFloat] finds at the front of the text,
    [None] when there is none.  The literal [Infinity], which [parseFloat]
    also reads, is no count of seconds and counts as none here. *)
Definition read_decimal (s : ustring) : option Decimal :=
  let (neg, s1) := take_sign (dropwhile js_isspace s) in
  let (ip, r1) := span_digits s1 in
  let (fp, r2) :=
    match r1 with
    | c :: t => if (c =? 46)%N then span_digits t else ([], r1)
    | [] => ([], r1)
    end in
  match ip ++ fp with
  | [] => None
  | m => Some {| dec_mantissa := signed neg (digits_value m);
                 dec_exponent := exponent_part r2 - Z.of_nat (length fp) |}
  end.

Definition double_of_decimal (d : Decimal) : Double :=
  if (0 <=? dec_exponent d)%Z
  then nearest_double (dec_mantissa d * 10 ^ dec_exponent d) 1
  else nearest_double (dec_mantissa d) (10 ^ (- dec_exponent d)).

(** [parseFloat(s)]: the double nearest to the literal; [None] is [NaN]. *)
Definition parseFloat (s : ustring) : option Double :=
  option_map double_of_decimal (read_decimal s).

(** [timeStr.split(':')] *)
Fixpoint split_colon (s : ustring) : list ustring :=
  match s with
  | [] => [[]]
  | c :: t =>
      if (c =? 58)%N then [] :: split_colon t
      else match split_colon t with
           | p :: ps => (c :: p) :: ps
           | [] => [[c]]
           end
  end.

Definition colon : ustring := lit ":".

(** [formatTime] and [formatScormTime], for a count of seconds that is not
    negative and below 2^53: there [Math.floor] of the rounded quotient is
    the quotient of the integers. *)
Definition formatTime (seconds : Z) : ustring :=
  let hrs := (seconds / 3600)%Z in
  let mins := (Z.rem seconds 3600 / 60)%Z in
  let secs := Z.rem seconds 60 in
  pad_zeros 2 (str_of_int hrs) ++ colon
  ++ pad_zeros 2 (str_of_int mins) ++ colon
  ++ pad_zeros 2 (str_of_int secs).

Definition formatScormTime (seconds : Z) : ustring :=
  let hrs := (seconds / 3600)%Z in
  let mins := (Z.rem seconds 3600 / 60)%Z in
  let secs := Z.rem seconds 60 in
  pad_zeros 4 (str_of_int hrs) ++ colon
  ++ pad_zeros 2 (str_of_int mins) ++ colon
  ++ pad_zeros 2 (str_of_int secs) ++ lit ".00".

(** [x || 0] on a parsed number. *)
Definition or_zero (x : option Z) : Z :=
  match x with Some z => z | None => 0%Z end.

(** The product and the sum of two whole numbers, rounded as the script's
    [*] and [+] round. *)
Definition times (a b : Z) : Z := round_int (a * b).
Definition plus (a b : Z) : Z := round_int (a + b).

Definition parseScormTime (timeStr : ustring) : Z :=
  if is_empty timeStr then 0%Z
  else
    match split_colon timeStr with
    | p0 :: p1 :: p2 :: _ =>
        let hrs := or_zero (parseInt10 p0) in
        let mins := or_zero (parseInt10 p1) in
        let secs := parseFloat p2 in
        plus (plus (times hrs 3600) (times mins 60))
             match secs with Some d => Math_floor d | None => 0%Z end
    | _ => 0%Z
    end.

(** *** State of the page and what it does to its surroundings *)

(** A value handed to [LMSSetValue].  The suspend data is the JSON text
    of [{totalTime, lastAccess}]; [lastAccess] is the clock's and is left
    out. *)
Inductive JsValue :=
| JsString (s : ustring)
| JsNumber (z : Z)
| SuspendJson (totalTime : Z).

Inductive Effect :=
| alert (message : ustring)
| confirm (message : ustring)
| LMSSetValue (element : ustring) (value : JsValue)
| LMSCommit
| LMSFinish
| clearInterval
| console_log (message : ustring).

(** The globals of the script, the [SCORM] object's flag, the parts of the
    document the script writes to, and the effects so far, oldest first.
    The width of the progress bar, a floating-point percentage, is left
    out. *)
Record State := {
  sessionSeconds : Z;
  totalSeconds : Z;
  isTimerRunning : bool;
  SCORM_isInitialized : bool;
  statusValue : ustring;
  statusCompleted : bool;
  timerIndicator : ustring;
  sessionTime_text : ustring;
  totalTime_text : ustring;
  effects : list Effect
}.

(** The page as loaded, before [SCORM.init] has run. *)
Definition initial_state : State :=
  {| sessionSeconds := 0; totalSeconds := 0; isTimerRunning := false;
     SCORM_isInitialized := false;
     statusValue := lit "Not Started"; statusCompleted := false;
     timerIndicator := lit "timer-paused";
     sessionTime_text := lit "00:00:00"; totalTime_text := lit "00:00:00";
     effects := [] |}.

Definition set_totalSeconds (v : Z) (st : State) : State :=
  {| sessionSeconds := sessionSeconds st; totalSeconds := v;
     isTimerRunning := isTimerRunning st;
     SCORM_isInitialized := SCORM_isInitialized st;
     statusValue := statusValue st; statusCompleted := statusCompleted st;
     timerIndicator := timerIndicator st;
     sessionTime_text := sessionTime_text st;
     totalTime_text := totalTime_text st; effects := effects st |}.

Definition emit (e : list Effect) (st : State) : State :=
  {| sessionSeconds := sessionSeconds st; totalSeconds := totalSeconds st;
     isTimerRunning := isTimerRunning st;
     SCORM_isInitialized := SCORM_isInitialized st;
     statusValue := statusValue st; statusCompleted := statusCompleted st;
     timerIndicator := timerIndicator st;
     sessionTime_text := sessionTime_text st;
     totalTime_text := totalTime_text st; effects := effects st ++ e |}.

Definition updateTimerDisplay (st : State) : State :=
  {| sessionSeconds := sessionSeconds st; totalSeconds := totalSeconds st;
     isTimerRunning := isTimerRunning st;
     SCORM_isInitialized := SCORM_isInitialized st;
     statusValue := statusValue st; statusCompleted := statusCompleted st;
     timerIndicator := timerIndicator st;
     sessionTime_text := formatTime (sessionSeconds st);
     totalTime_text := formatTime (totalSeconds st); effects := effects st |}.

(** [updateStatus(status, isCompleted)] *)
Definition updateStatus (status : ustring) (isCompleted : bool) (st : State) : State :=
  {| sessionSeconds := sessionSeconds st; totalSeconds := totalSeconds st;
     isTimerRunning := isTimerRunning st;
     SCORM_isInitialized := SCORM_isInitialized st;
     statusValue := status;
     statusCompleted := if isCompleted then true else statusCompleted st;
     timerIndicator := timerIndicator st;
     sessionTime_text := sessionTime_text st;
     totalTime_text := totalTime_text st; effects := effects st |}.

(** The two assignments of [pauseTimer]. *)
Definition timer_stopped (st : State) : State :=
  {| sessionSeconds := sessionSeconds st; totalSeconds := totalSeconds st;
     isTimerRunning := false;
     SCORM_isInitialized := SCORM_isInitialized st;
     statusValue := statusValue st; statusCompleted := statusCompleted st;
     timerIndicator := lit "timer-paused";
     sessionTime_text := sessionTime_text st;
     totalTime_text := totalTime_text st;
     effects := effects st ++ [clearInterval] |}.

(** [SCORM.setValue], [SCORM.setStatus], [SCORM.setScore], [SCORM.complete]
    of [scormapi.js].  The flag is set only once the API object is found,
    so it stands for both tests of the guard. *)
Definition SCORM_setValue (element : ustring) (value : JsValue) (st : State) : State :=
  if SCORM_isInitialized st then emit [LMSSetValue element value; LMSCommit] st
  else st.

Definition SCORM_setStatus (status : ustring) (st : State) : State :=
  if SCORM_isInitialized st then
    emit [LMSSetValue (lit "cmi.core.lesson_status") (JsString status); LMSCommit] st
  else st.

Definition SCORM_setScore (score : Z) (st : State) : State :=
  if SCORM_isInitialized st then
    emit [LMSSetValue (lit "cmi.core.score.raw") (JsNumber score);
          LMSSetValue (lit "cmi.core.score.min") (JsString (lit "0"));
          LMSSetValue (lit "cmi.core.score.max") (JsString (lit "100"));
          LMSCommit] st
  else st.

Definition SCORM_complete (st : State) : State :=
  emit [console_log (lit "SCORM: Course marked as completed")]
       (SCORM_setScore 100 (SCORM_setStatus (lit "completed") st)).

Definition commitTimeToScorm (st : State) : State :=
  if SCORM_isInitialized st then
    SCORM_setValue (lit "cmi.suspend_data") (SuspendJson (totalSeconds st))
      (SCORM_setValue (lit "cmi.core.session_time")
         (JsString (formatScormTime (sessionSeconds st))) st)
  else st.

Definition pauseTimer (st : State) : State :=
  if negb (isTimerRunning st) then st
  else commitTimeToScorm (timer_stopped st).

Definition newline : uchar := 10%N.

(** The text of the alert of the minimum-time check. *)
Definition gate_alert (minutes remaining : Z) : ustring :=
  lit "You need to spend at least " ++ str_of_int minutes
  ++ lit " minutes on this course before marking it complete."
  ++ [newline; newline] ++ lit "Time remaining: " ++ formatTime remaining.

Definition confirm_prompt (total : Z) : ustring :=
  lit "Are you sure you want to mark this course as complete?"
  ++ [newline; newline] ++ lit "Total time: " ++ formatTime total.

Definition completed_alert (total : Z) : ustring :=
  lit "Course has been marked as complete!" ++ [newline]
  ++ lit "Total time recorded: " ++ formatTime total.

(** [markComplete] from the [confirm] on. *)
Definition confirm_and_complete (answer : bool) (st : State) : State :=
  let st := emit [confirm (confirm_prompt (totalSeconds st))] st in
  if answer then
    let st := pauseTimer st in
    let st := commitTimeToScorm st in
    let st := SCORM_complete st in
    let st := updateStatus (lit "Completed") true st in
    emit [alert (completed_alert (totalSeconds st))] st
  else st.

(** [markComplete]; [gate] is the check compiled into the page, if any,
    and [answer] what the learner replies to [confirm]. *)
Definition markComplete (gate : option Gate) (answer : bool) (st : State) : State :=
  match gate with
  | Some g =>
      if (totalSeconds st <? MIN_TIME_REQUIRED g)%Z then
        let remaining := (MIN_TIME_REQUIRED g - totalSeconds st)%Z in
        emit [alert (gate_alert (gate_minutes g) remaining)] st
      else confirm_and_complete answer st
  | None => confirm_and_complete answer st
  end.

(** *** Restore *)

(** What [JSON.parse(text).totalTime] comes to: the parse or the property
    access throws, or the property is read, [None] when it is undefined.
    The model covers whole numbers there. *)
Inductive Parsed :=
| Throws
| Object (totalTime : option Z).

(** The browser's [JSON.parse] and the answers of the LMS to
    [LMSGetValue]. *)
Class Host := {
  JSON_parse : ustring -> Parsed;
  LMSGetValue : ustring -> ustring
}.

Section Restore.
Context {H : Host}.

Definition SCORM_getValue (element : ustring) (st : State) : ustring :=
  if SCORM_isInitialized st then LMSGetValue element else [].

Definition loadTimeFromScorm (st : State) : State :=
  if SCORM_isInitialized st then
    let suspendData := SCORM_getValue (lit "cmi.suspend_data") st in
    let st :=
      if negb (is_empty suspendData) then
        match JSON_parse suspendData with
        | Object (Some t) =>
            if (t =? 0)%Z then st
            else updateTimerDisplay (set_totalSeconds t st)
        | Object None => st
        | Throws => emit [console_log (lit "Could not parse suspend_data")] st
        end
      else st in
    let totalTimeStr := SCORM_getValue (lit "cmi.core.total_time") st in
    if negb (is_empty totalTimeStr) then
      let prevTotal := parseScormTime totalTimeStr in
      if (prevTotal >? totalSeconds st)%Z then
        updateTimerDisplay (set_totalSeconds prevTotal st)
      else st
    else st
  else st.
End Restore.
End Script.

(** ** The check the page carries *)












(** ** Sample inputs *)

Definition form_with (title url : ustring) : Form :=
  {| course_title := title; subtitle := []; additional_info := [];
     course_url := url; primary_color := lit "#5F2EEA";
     expected_duration := 60; mastery_score := 80;
     require_min_time := false; min_time_input := 30 |}.

Definition blank_title_ftp_form : Form :=
  form_with (lit "   ") (lit "ftp://example.com/course").

Definition leading_blank_url_form : Form :=
  form_with (lit "Demo") (lit " https://example.com").

Definition demo_spec : CourseSpec :=
  {| spec_title := lit "Demo"; spec_url := lit "https://example.com";
     spec_primary_color := lit "#5F2EEA"; spec_mastery_score := 80;
     spec_expected_duration := 60; spec_require_min_time := true;
     spec_min_time_minutes := 30; spec_subtitle := [];
     spec_additional_info := [] |}.

Definition ustring_eq_dec : forall a b : ustring, {a = b} + {a <> b} :=
  list_eq_dec N.eq_dec.

(** ** The colour derivation in the specification's words *)

Definition hexv (c : uchar) : Z :=
  match hex_value c with Some v => v | None => 0%Z end.

(** A byte component from its two hexadecimal digits. *)
Definition spec_byte (hi lo : uchar) : Z := (16 * hexv hi + hexv lo)%Z.

(** 40 less, not below 0. *)
Definition spec_darken (v : Z) : Z := Z.max 0 (v - 40).

(** A channel written back as two hexadecimal digits. *)
Definition two_hex_digits (v : Z) : ustring :=
  [digit_char (Z.to_N (v / 16)); digit_char (Z.to_N (v mod 16))].

Definition spec_darker (color : ustring) : ustring :=
  match color with
  | [_; r1; r2; g1; g2; b1; b2] =>
      hash :: two_hex_digits (spec_darken (spec_byte r1 r2))
           ++ two_hex_digits (spec_darken (spec_byte g1 g2))
           ++ two_hex_digits (spec_darken (spec_byte b1 b2))
  | _ => []
  end.

Definition slash : uchar := 47%N.

Definition at_archive_root (e : ZipInfo) : bool :=
  negb (existsb (N.eqb slash) (filename e)).

Definition below (n : nat) : list N := map N.of_nat (seq 0 n).

(** Two hexadecimal digits are read by [int(..., 16)] as their byte. *)
Definition byte_read_ok {U : UnicodeData} (a b : uchar) : bool :=
  implb (is_hex_digit a && is_hex_digit b)
    (match int_base16 [a; b] with
     | Some z => (z =? spec_byte a b)%Z && (0 <=? z)%Z && (z <=? 255)%Z
     | None => false
     end).

(** A learner's page restored by an LMS that holds 500 seconds in the
    suspend data and 700 seconds as total time. *)
Definition suspend_500 : ustring :=
  lit "{" ++ [dquote] ++ lit "totalTime" ++ [dquote] ++ lit ":500,"
  ++ [dquote] ++ lit "lastAccess" ++ [dquote] ++ lit ":" ++ [dquote]
  ++ lit "2024-01-01T00:00:00.000Z" ++ [dquote] ++ lit "}".

Definition lms_500_700 : Script.Host :=
  {| Script.JSON_parse := fun text =>
       if ustring_eqb text suspend_500 then Script.Object (Some 500%Z)
       else Script.Throws;
     Script.LMSGetValue := fun element =>
       if ustring_eqb element (lit "cmi.suspend_data") then suspend_500
       else if ustring_eqb element (lit "cmi.core.total_time") then lit "0000:11:40.00"
       else [] |}.

Definition initialized_state : Script.State :=
  {| Script.sessionSeconds := 0; Script.totalSeconds := 0;
     Script.isTimerRunning := false; Script.SCORM_isInitialized := true;
     Script.statusValue := lit "Not Started"; Script.statusCompleted := false;
     Script.timerIndicator := lit "timer-paused";
     Script.sessionTime_text := lit "00:00:00";
     Script.totalTime_text := lit "00:00:00"; Script.effects := [] |}.

Definition running_state (session total : Z) : Script.State :=
  {| Script.sessionSeconds := session; Script.totalSeconds := total;
     Script.isTimerRunning := true; Script.SCORM_isInitialized := true;
     Script.statusValue := lit "In Progress"; Script.statusCompleted := false;
     Script.timerIndicator := lit "timer-active";
     Script.sessionTime_text := Script.formatTime session;
     Script.totalTime_text := Script.formatTime total; Script.effects := [] |}.

Definition digit_string (d : ustring) : Prop :=
  d <> [] /\ Forall (fun c => Script.is_digit c = true) d.

Definition not_digit_next (r : ustring) : Prop :=
  match r with
  | [] => True
  | c :: _ => Script.is_digit c = false
  end.

(** ** More of the launcher script: the timer callback and the unload handler *)

Module Timer.
Import Script.

Definition set_counters (session total : Z) (st : State) : State :=
  {| sessionSeconds := session; totalSeconds := total;
     isTimerRunning := isTimerRunning st;
     SCORM_isInitialized := SCORM_isInitialized st;
     statusValue := statusValue st; statusCompleted := statusCompleted st;
     timerIndicator := timerIndicator st;
     sessionTime_text := sessionTime_text st;
     totalTime_text := totalTime_text st; effects := effects st |}.

(** The function [startTimer] hands to [setInterval], fired once a second. *)
Definition tick (st : State) : State :=
  let st := set_counters (sessionSeconds st + 1) (totalSeconds st + 1) st in
  let st := updateTimerDisplay st in
  if (Z.rem (sessionSeconds st) 30 =? 0)%Z then commitTimeToScorm st else st.

(** [n] firings in a row. *)
Fixpoint ticks (n : nat) (st : State) : State :=
  match n with
  | O => st
  | S k => ticks k (tick st)
  end.

(** The [beforeunload] listener of the page. *)
Definition on_beforeunload (st : State) : State :=
  commitTimeToScorm (pauseTimer st).

(** The total of the latest suspend data handed to the LMS, [stored] when
    there is none. *)
Fixpoint last_suspend (stored : Z) (l : list Effect) : Z :=
  match l with
  | [] => stored
  | LMSSetValue _ (SuspendJson t) :: r => last_suspend t r
  | _ :: r => last_suspend stored r
  end.

Definition is_lms_call (e : Effect) : bool :=
  match e with
  | LMSSetValue _ _ | LMSCommit | LMSFinish => true
  | _ => false
  end.

(** The calls one [commitTimeToScorm] makes on an initialized page. *)
Definition commit_calls (st : State) : list Effect :=
  [ LMSSetValue (lit "cmi.core.session_time")
                (JsString (formatScormTime (sessionSeconds st)));
    LMSCommit;
    LMSSetValue (lit "cmi.suspend_data") (SuspendJson (totalSeconds st));
    LMSCommit ].

(** The calls of [SCORM.complete] on an initialized page. *)
Definition complete_calls : list Effect :=
  [ LMSSetValue (lit "cmi.core.lesson_status") (JsString (lit "completed"));
    LMSCommit;
    LMSSetValue (lit "cmi.core.score.raw") (JsNumber 100);
    LMSSetValue (lit "cmi.core.score.min") (JsString (lit "0"));
    LMSSetValue (lit "cmi.core.score.max") (JsString (lit "100"));
    LMSCommit;
    console_log (lit "SCORM: Course marked as completed") ].

End Timer.

(** ** The API wrapper [scormapi.js]: discovery and initialization *)

Module Shim.
Import Script.

(** What the LMS answers to [LMSInitialize("")]: the text "true", the
    boolean [true], or anything else. *)
Inductive InitAnswer := AnswersTrueText | AnswersTrue | AnswersOther.

Record Api := { api_id : N; LMSInitialize_answer : InitAnswer }.

(** A window with its [API] property, its parent and its opener.  No
    parent stands for a missing parent and for a top window, which is its
    own parent.  Windows whose properties may not be read (another origin)
    are outside the model. *)
#[warnings="-register-all"]
Inductive Window :=
| Win (API : option Api) (parent : option Window) (opener : option Window).

Definition API_of (w : Window) : option Api :=
  match w with Win a _ _ => a end.

Definition parent_of (w : Window) : option Window :=
  match w with Win _ p _ => p end.

Definition opener_of (w : Window) : option Window :=
  match w with Win _ _ o => o end.

Definition maxAttempts : nat := 500.

(** [findAPI], with [left] the hops the loop may still make: the loop goes
    up while the window has no API, has a parent and hops are left; then
    the window's API, its opener's API, or the search from the opener. *)
Fixpoint findAPI_from (left : nat) (win : Window) : option Api :=
  match win with
  | Win (Some api) _ _ => Some api
  | Win None par opn =>
      match par, left with
      | Some p, S k => findAPI_from k p
      | _, _ =>
          match opn with
          | Some o =>
              match API_of o with
              | Some api => Some api
              | None => findAPI_from maxAttempts o
              end
          | None => None
          end
      end
  end.

Definition findAPI (win : Window) : option Api := findAPI_from maxAttempts win.

Definition set_initialized (b : bool) (st : State) : State :=
  {| sessionSeconds := sessionSeconds st; totalSeconds := totalSeconds st;
     isTimerRunning := isTimerRunning st;
     SCORM_isInitialized := b;
     statusValue := statusValue st; statusCompleted := statusCompleted st;
     timerIndicator := timerIndicator st;
     sessionTime_text := sessionTime_text st;
     totalTime_text := totalTime_text st; effects := effects st |}.

Definition init_failed : ustring :=
  lit "SCORM: Could not initialize - API not found or initialization failed".

(** [SCORM.init]: the value returned and the state left.  The call to
    [LMSInitialize] shows in the answer read from the API found. *)
Definition init (window : Window) (st : State) : bool * State :=
  match findAPI window with
  | Some api =>
      match LMSInitialize_answer api with
      | AnswersTrueText | AnswersTrue =>
          let st := set_initialized true st in
          let st := SCORM_setStatus (lit "incomplete") st in
          (true, emit [console_log (lit "SCORM: Successfully initialized")] st)
      | AnswersOther => (false, emit [console_log init_failed] st)
      end
  | None => (false, emit [console_log init_failed] st)
  end.

(** [SCORM.finish] *)
Definition finish (st : State) : State :=
  if SCORM_isInitialized st then
    emit [console_log (lit "SCORM: Session terminated")]
         (set_initialized false (emit [LMSCommit; LMSFinish] st))
  else st.

(** Leaving the page.  [scormapi.js] is loaded in the head and puts
    [SCORM.finish] on [window.onbeforeunload] before the script of the
    page adds its own [beforeunload] listener, so [finish] runs first, the
    listener second; [window.onunload] runs [finish] once more. *)
Definition on_leave (st : State) : State :=
  finish (Timer.on_beforeunload (finish st)).

(** The [k]-th window up the chain of parents. *)
Fixpoint ancestor (k : nat) (win : Window) : option Window :=
  match k with
  | O => Some win
  | S j =>
      match parent_of win with
      | Some p => ancestor j p
      | None => None
      end
  end.

(** The windows that parent and opener links lead to. *)
Inductive reaches : Window -> Window -> Prop :=
| reaches_self w : reaches w w
| reaches_parent w p v : parent_of w = Some p -> reaches p v -> reaches w v
| reaches_opener w o v : opener_of w = Some o -> reaches o v -> reaches w v.

(** A frame nested [depth] parents below [top]. *)
Fixpoint nested (depth : nat) (top : Window) : Window :=
  match depth with
  | O => top
  | S d => Win None (Some (nested d top)) None
  end.

End Shim.

(** The two steps of [loadTimeFromScorm], named. *)
Section RestorePhases.
Import Script.
Context {H : Host}.

Definition adopt_suspend_total (st : State) : State :=
  let suspendData := SCORM_getValue (lit "cmi.suspend_data") st in
  if negb (is_empty suspendData) then
    match JSON_parse suspendData with
    | Object (Some t) =>
        if (t =? 0)%Z then st
        else updateTimerDisplay (set_totalSeconds t st)
    | Object None => st
    | Throws => emit [console_log (lit "Could not parse suspend_data")] st
    end
  else st.

Definition prefer_total_time (st : State) : State :=
  let totalTimeStr := SCORM_getValue (lit "cmi.core.total_time") st in
  if negb (is_empty totalTimeStr) then
    let prevTotal := parseScormTime totalTimeStr in
    if (prevTotal >? totalSeconds st)%Z then
      updateTimerDisplay (set_totalSeconds prevTotal st)
    else st
  else st.
End RestorePhases.

(** ** More sample inputs *)

Definition color_channels (c : ustring) : Z * Z * Z :=
  match c with
  | [_; r1; r2; g1; g2; b1; b2] =>
      (spec_byte r1 r2, spec_byte g1 g2, spec_byte b1 b2)
  | _ => (0, 0, 0)%Z
  end.

Definition demo_form : Form := form_with (lit "Demo") (lit "https://example.com").


(** Characters that would break an XML attribute or a file name: the
    double and single quote, ampersand, angle brackets, slash, backslash,
    colon, asterisk, question mark, bar and dot. *)
Definition unsafe_chars : list uchar :=
  [34; 39; 38; 60; 62; 47; 92; 58; 42; 63; 124; 46]%N.

Definition lms_api : Shim.Api :=
  {| Shim.api_id := 1; Shim.LMSInitialize_answer := Shim.AnswersTrueText |}.

Definition lms_window : Shim.Window := Shim.Win (Some lms_api) None None.

(** An LMS whose suspend data is no JSON and whose total time is 700
    seconds. *)
Definition lms_garbled : Script.Host :=
  {| Script.JSON_parse := fun _ => Script.Throws;
     Script.LMSGetValue := fun element =>
       if ustring_eqb element (lit "cmi.suspend_data") then lit "totalTime=500"
       else if ustring_eqb element (lit "cmi.core.total_time") then lit "0000:11:40.00"
       else [] |}.

Definition uninitialized_running (session total : Z) : Script.State :=
  {| Script.sessionSeconds := session; Script.totalSeconds := total;
     Script.isTimerRunning := true; Script.SCORM_isInitialized := false;
     Script.statusValue := lit "In Progress"; Script.statusCompleted := false;
     Script.timerIndicator := lit "timer-active";
     Script.sessionTime_text := Script.formatTime session;
     Script.totalTime_text := Script.formatTime total; Script.effects := [] |}.

(** * Properties *)

(** ** Filename sanitizer *)

Section SanitizerFacts.
Context {U : UnicodeData}.

Lemma re_sub_class_negated (p : uchar -> bool) (s : ustring) :
  re_sub_class (fun c => negb (p c)) [] s = filter p s.
Proof.
  induction s as [|c s IH]; simpl; [reflexivity|].
  destruct (p c); simpl; now rewrite IH.
Qed.

Lemma removed_is_filter (name : ustring) :
  re_sub_class not_word_space_hyphen [] name = filter spec_retained name.
Proof. apply (re_sub_class_negated spec_retained). Qed.

Lemma re_sub_class_fixed (cls : uchar -> bool) (repl s : ustring) :
  Forall (fun c => cls c = false) s -> re_sub_class cls repl s = s.
Proof.
  induction 1 as [|c s Hc _ IH]; simpl; [reflexivity|].
  now rewrite Hc, IH.
Qed.

Lemma scan_fixed (cls : uchar -> bool) (repl : ustring) (b : bool) (s : ustring) :
  Forall (fun c => cls c = false) s -> re_sub_class_plus_scan cls repl b s = s.
Proof.
  intros Hs; revert b.
  induction Hs as [|c s Hc _ IH]; intros b; simpl; [reflexivity|].
  now rewrite Hc, IH.
Qed.

(** One more blank in front of a string that starts with a run. *)
Lemma collapsed_extend_run (c a : uchar) (s r : ustring) :
  py_isspace c = true -> py_isspace a = true ->
  spec_runs_collapsed (a :: s) (underscore :: r) ->
  spec_runs_collapsed (c :: a :: s) (underscore :: r).
Proof.
  intros Hc Ha Hrun.
  remember (a :: s) as x eqn:Hx. remember (underscore :: r) as y eqn:Hy.
  destruct Hrun as [| c0 s0 r0 Hns _ | ws s0 r0 Hne Hws Hst Hrest].
  - discriminate.
  - injection Hx as -> ->. congruence.
  - injection Hy as ->.
    change (c :: ws ++ s0) with ((c :: ws) ++ s0).
    apply collapsed_run; auto.
    discriminate.
Qed.

Lemma scan_collapses (s : ustring) :
  spec_runs_collapsed s (re_sub_class_plus_scan py_isspace (lit "_") false s)
  /\ forall c, py_isspace c = true ->
       spec_runs_collapsed (c :: s)
         (underscore :: re_sub_class_plus_scan py_isspace (lit "_") true s).
Proof.
  induction s as [|a s [IH1 IH2]].
  - split; [constructor|].
    intros c Hc. apply (collapsed_run (ws := [c]) (s := [])); simpl; auto.
    + discriminate.
    + constructor.
  - split.
    + simpl. destruct (py_isspace a) eqn:Ha.
      * apply IH2, Ha.
      * now constructor.
    + intros c Hc. simpl. destruct (py_isspace a) eqn:Ha.
      * apply collapsed_extend_run; auto.
      * apply (collapsed_run (ws := [c]) (s := a :: s)); simpl; auto.
        -- discriminate.
        -- now constructor.
Qed.

Lemma scan_chars (b : bool) (s : ustring) :
  Forall (fun c => py_isspace c = false /\ (c = underscore \/ In c s))
         (re_sub_class_plus_scan py_isspace (lit "_") b s).
Proof.
  revert b. induction s as [|a s IH]; intros b; simpl; [constructor|].
  assert (Hmono : forall b',
    Forall (fun c => py_isspace c = false /\ (c = underscore \/ In c (a :: s)))
           (re_sub_class_plus_scan py_isspace (lit "_") b' s)).
  { intros b'. eapply Forall_impl; [|apply (IH b')].
    simpl. intros c [H1 [H2|H2]]; auto. }
  destruct (py_isspace a) eqn:Ha.
  - destruct b; simpl; [apply Hmono|].
    constructor; [|apply Hmono]. split; [reflexivity|now left].
  - constructor; [|apply Hmono]. split; [assumption|right; now left].
Qed.

Lemma In_firstn (n : nat) (l : ustring) (c : uchar) :
  In c (firstn n l) -> In c l.
Proof.
  intros Hc. rewrite <- (firstn_skipn n l). apply in_or_app. now left.
Qed.

Lemma sanitize_chars (name : ustring) :
  Forall (fun c => py_isspace c = false /\ (re_word c = true \/ c = hyphen))
         (sanitize_filename name).
Proof.
  unfold sanitize_filename, re_sub_class_plus.
  rewrite removed_is_filter.
  apply Forall_forall. intros c Hc.
  apply In_firstn in Hc.
  pose proof (scan_chars false (filter spec_retained name)) as Hall.
  rewrite Forall_forall in Hall. destruct (Hall c Hc) as [Hns Hsrc].
  split; [assumption|].
  destruct Hsrc as [->|Hin]; [left; reflexivity|].
  apply filter_In in Hin. destruct Hin as [_ Hkeep].
  unfold spec_retained in Hkeep. rewrite Hns in Hkeep.
  rewrite orb_false_r in Hkeep.
  apply orb_true_iff in Hkeep. destruct Hkeep as [Hw|Hh]; [now left|].
  right. now apply N.eqb_eq in Hh.
Qed.

Lemma sanitize_length (name : ustring) : length (sanitize_filename name) <= 50.
Proof. unfold sanitize_filename. apply firstn_le_length. Qed.
End SanitizerFacts.

Section SanitizerClaims.
Context {U : UnicodeData}.

(** C2.  Whatever the input, [sanitize_filename] returns at most 50
    characters, each a word character or a hyphen and none of them
    whitespace; the result is the input with the characters other than
    word characters, whitespace and hyphens removed, then each maximal
    run of whitespace replaced by one underscore, then cut to 50
    characters; and the title "Selling the Message(R)" gives
    "Selling_the_Message". *)
Theorem sanitize_filename_spec (name : ustring) :
  Forall (fun c => re_word c = true \/ c = hyphen) (sanitize_filename name)
  /\ Forall (fun c => py_isspace c = false) (sanitize_filename name)
  /\ length (sanitize_filename name) <= 50
  /\ spec_sanitized name (sanitize_filename name)
  /\ sanitize_filename (lit "Selling the Message" ++ [0xAE%N])
     = lit "Selling_the_Message".
Proof.
  pose proof (sanitize_chars name) as Hall.
  repeat split.
  - eapply Forall_impl; [|exact Hall]. simpl. tauto.
  - eapply Forall_impl; [|exact Hall]. simpl. tauto.
  - apply sanitize_length.
  - exists (re_sub_class_plus py_isspace (lit "_") (filter spec_retained name)).
    split.
    + apply scan_collapses.
    + unfold sanitize_filename. now rewrite removed_is_filter.
Qed.

(** C9.  Sanitizing twice is sanitizing once. *)
Theorem sanitize_filename_idempotent (x : ustring) :
  sanitize_filename (sanitize_filename x) = sanitize_filename x.
Proof.
  pose proof (sanitize_chars x) as Hall.
  pose proof (sanitize_length x) as Hlen.
  set (y := sanitize_filename x) in *.
  unfold sanitize_filename, re_sub_class_plus.
  rewrite re_sub_class_fixed.
  - rewrite scan_fixed.
    + now apply firstn_all2.
    + eapply Forall_impl; [|exact Hall]. simpl. tauto.
  - eapply Forall_impl; [|exact Hall].
    intros c [Hns [Hw| ->]]; unfold not_word_space_hyphen.
    + now rewrite Hw.
    + reflexivity.
Qed.
End SanitizerClaims.

(** ** Validation *)

Lemma startswith_app (pre s : ustring) : startswith pre (pre ++ s) = true.
Proof.
  induction pre as [|c pre IH]; simpl; [reflexivity|].
  now rewrite N.eqb_refl, IH.
Qed.

Lemma startswith_split (pre s : ustring) :
  startswith pre s = true -> exists r, s = pre ++ r.
Proof.
  revert s. induction pre as [|c pre IH]; intros s Hs; simpl in *.
  - now exists s.
  - destruct s as [|d s]; [discriminate|].
    apply andb_true_iff in Hs. destruct Hs as [Hc Hs].
    apply N.eqb_eq in Hc. subst d.
    destruct (IH s Hs) as [r ->]. now exists r.
Qed.

Lemma dropwhile_keeps_suffix (p : uchar -> bool) (a : ustring) (c : uchar) (b : ustring) :
  p c = false -> exists x, dropwhile p (a ++ c :: b) = x ++ c :: b.
Proof.
  intros Hc. induction a as [|a0 a IH]; simpl.
  - rewrite Hc. now exists [].
  - destruct (p a0).
    + exact IH.
    + now exists (a0 :: a).
Qed.

(** Trimming does not eat into a prefix free of whitespace. *)
Lemma strip_keeps_prefix (pre s : ustring) :
  pre <> [] -> Forall (fun c => py_isspace c = false) pre ->
  startswith pre s = true -> startswith pre (strip s) = true.
Proof.
  intros Hne Hpre Hs.
  destruct (startswith_split pre s Hs) as [r ->].
  unfold strip, lstrip_ws, rstrip_ws.
  assert (Hl : dropwhile py_isspace (pre ++ r) = pre ++ r).
  { destruct pre as [|c pre]; [congruence|].
    inversion Hpre as [|? ? Hc _]; subst. simpl. now rewrite Hc. }
  rewrite Hl, rev_app_distr.
  assert (Hrev : exists c b, rev pre = c :: b /\ py_isspace c = false).
  { apply Forall_rev in Hpre.
    destruct (rev pre) as [|c b] eqn:E.
    - apply (f_equal (@rev uchar)) in E. rewrite rev_involutive in E.
      simpl in E. congruence.
    - inversion Hpre; subst. now exists c, b. }
  destruct Hrev as (c & b & E & Hc). rewrite E.
  destruct (dropwhile_keeps_suffix py_isspace (rev r) c b Hc) as [x ->].
  rewrite <- E, rev_app_distr, rev_involutive.
  apply startswith_app.
Qed.

Lemma has_scheme_strip (url : ustring) :
  has_scheme url = true -> has_scheme (strip url) = true.
Proof.
  unfold has_scheme. intros Hs.
  apply orb_true_iff in Hs. apply orb_true_iff.
  destruct Hs as [Hs|Hs]; [left|right];
    (apply strip_keeps_prefix;
     [discriminate | repeat constructor | exact Hs]).
Qed.

Lemma is_empty_false (s : ustring) : s <> [] -> is_empty s = false.
Proof. destruct s; [congruence|reflexivity]. Qed.

Section ValidationClaims.
Context {U : UnicodeData}.

(** C3.  A title that is empty once trimmed together with a URL that is
    not empty once trimmed and lacks the http:// or https:// scheme (as
    entered or trimmed) gives exactly the two errors "Course title is
    required" and "Course URL must start with http:// or https://", and
    the button shows them instead of building an archive. *)
Theorem empty_title_bad_scheme_two_errors (f : Form) :
  strip (course_title f) = [] ->
  strip (course_url f) <> [] ->
  has_scheme (strip (course_url f)) = false \/ has_scheme (course_url f) = false ->
  validate (course_title f) (course_url f) = [title_required; url_scheme_required]
  /\ on_generate f = ErrorsShown [title_required; url_scheme_required].
Proof.
  intros Ht Hu Hs.
  assert (Hraw : has_scheme (course_url f) = false).
  { destruct Hs as [Hs|Hs]; [|exact Hs].
    destruct (has_scheme (course_url f)) eqn:E; [|reflexivity].
    apply has_scheme_strip in E. congruence. }
  assert (Hv : validate (course_title f) (course_url f)
               = [title_required; url_scheme_required]).
  { unfold validate. now rewrite Ht, (is_empty_false Hu), Hraw. }
  split; [exact Hv|].
  unfold on_generate. rewrite Hv. reflexivity.
Qed.

(** C10.  Validation reports at most two errors, the title error at most
    once, and never both URL errors. *)
Theorem validation_error_bounds (title url : ustring) :
  length (validate title url) <= 2
  /\ count_occ ustring_eq_dec (validate title url) title_required <= 1
  /\ ~ (In url_required (validate title url)
        /\ In url_scheme_required (validate title url)).
Proof.
  unfold validate.
  destruct (is_empty (strip title)), (is_empty (strip url)), (has_scheme url);
    simpl; (split; [lia|split; [vm_compute; lia|]]);
    intros [H1 H2]; simpl in H1, H2;
    repeat match goal with
           | H : _ \/ _ |- _ => destruct H
           | H : False |- _ => destruct H
           | H : _ = _ |- _ => solve [vm_compute in H; discriminate H]
           end.
Qed.

(** What does hold for C4: with a title that is not empty once trimmed
    and a URL that starts, as entered, with one of the schemes, there is
    no error and the trimmed specification goes to the generator. *)
Lemma validation_passes_as_entered (f : Form) :
  strip (course_title f) <> [] ->
  has_scheme (course_url f) = true ->
  validate (course_title f) (course_url f) = []
  /\ on_generate f =
     match package_of (trimmed_spec f) with
     | Some zip_data =>
         PackageOffered zip_data (sanitize_filename (course_title f) ++ lit "_SCORM.zip")
     | None => GenerationFailed
     end.
Proof.
  intros Ht Hs.
  assert (Hu : is_empty (strip (course_url f)) = false).
  { apply has_scheme_strip in Hs.
    destruct (strip (course_url f)); [discriminate Hs|reflexivity]. }
  assert (Hv : validate (course_title f) (course_url f) = []).
  { unfold validate. now rewrite (is_empty_false Ht), Hu, Hs. }
  split; [exact Hv|].
  unfold on_generate. rewrite Hv. reflexivity.
Qed.

(** C4, at the input where the code departs from it: the URL
    " https://example.com" starts with https:// once trimmed, and is
    refused with the scheme error all the same. *)
Theorem leading_blank_url_rejected :
  strip (course_title leading_blank_url_form) <> []
  /\ has_scheme (strip (course_url leading_blank_url_form)) = true
  /\ validate (course_title leading_blank_url_form)
              (course_url leading_blank_url_form) = [url_scheme_required]
  /\ on_generate leading_blank_url_form = ErrorsShown [url_scheme_required].
Proof. repeat split. discriminate. Qed.
End ValidationClaims.

Lemma empty_title_bad_scheme_witness :
  validate (course_title blank_title_ftp_form) (course_url blank_title_ftp_form)
  = [title_required; url_scheme_required]
  /\ on_generate (U := Latin1Only) blank_title_ftp_form
     = ErrorsShown [title_required; url_scheme_required].
Proof.
  apply (empty_title_bad_scheme_two_errors (U := Latin1Only) blank_title_ftp_form).
  - reflexivity.
  - discriminate.
  - left. reflexivity.
Defined.

(** ** Colour derivation *)

Lemma forallb_below (P : N -> bool) (n : nat) :
  forallb P (below n) = true -> forall c, (c < N.of_nat n)%N -> P c = true.
Proof.
  intros Hall c Hc. rewrite forallb_forall in Hall. apply Hall.
  unfold below. rewrite <- (N2Nat.id c). apply in_map, in_seq. lia.
Qed.

Lemma ustring_eqb_eq (a b : ustring) : ustring_eqb a b = true -> a = b.
Proof.
  revert b. induction a as [|x a IH]; intros [|y b] H; simpl in H;
    try discriminate; [reflexivity|].
  apply andb_true_iff in H. destruct H as [Hx Hab].
  apply N.eqb_eq in Hx. subst. f_equal. now apply IH.
Qed.

Lemma hex_digit_below (c : uchar) : is_hex_digit c = true -> (c < 103)%N.
Proof.
  unfold is_hex_digit, hex_value, in_range.
  destruct ((48 <=? c)%N && (c <=? 57)%N) eqn:E1.
  { intros _. apply andb_true_iff in E1. destruct E1 as [_ E1].
    apply N.leb_le in E1. lia. }
  destruct ((97 <=? c)%N && (c <=? 102)%N) eqn:E2.
  { intros _. apply andb_true_iff in E2. destruct E2 as [_ E2].
    apply N.leb_le in E2. lia. }
  destruct ((65 <=? c)%N && (c <=? 70)%N) eqn:E3; [|discriminate].
  intros _. apply andb_true_iff in E3. destruct E3 as [_ E3].
  apply N.leb_le in E3. lia.
Qed.

Section ColourFacts.
Context {U : UnicodeData}.

Lemma int_base16_two_digits (a b : uchar) :
  is_hex_digit a = true -> is_hex_digit b = true ->
  int_base16 [a; b] = Some (spec_byte a b)
  /\ (0 <= spec_byte a b <= 255)%Z.
Proof.
  intros Ha Hb.
  assert (Hall : forallb (fun x => forallb (byte_read_ok x) (below 103)) (below 103)
                 = true) by (vm_compute; reflexivity).
  pose proof (@forallb_below _ 103 Hall a (@hex_digit_below a Ha)) as Hrow.
  pose proof (@forallb_below _ 103 Hrow b (@hex_digit_below b Hb)) as Hok.
  unfold byte_read_ok in Hok. rewrite Ha, Hb in Hok. simpl in Hok.
  destruct (int_base16 [a; b]) as [z|]; [|discriminate].
  apply andb_true_iff in Hok. destruct Hok as [Hok H255].
  apply andb_true_iff in Hok. destruct Hok as [Heq H0].
  apply Z.eqb_eq in Heq. apply Z.leb_le in H0, H255. subst z. auto.
Qed.

Lemma hex_digit_not_hash (c : uchar) :
  is_hex_digit c = true -> (c =? hash)%N = false.
Proof.
  intros Hc.
  assert (Hall : forallb (fun x => implb (is_hex_digit x) (negb (x =? hash)%N))
                         (below 103) = true) by (vm_compute; reflexivity).
  pose proof (@forallb_below _ 103 Hall c (@hex_digit_below c Hc)) as Hok.
  simpl in Hok. rewrite Hc in Hok. simpl in Hok.
  now apply negb_true_iff in Hok.
Qed.
End ColourFacts.

Lemma format_02x_two_digits (v : Z) :
  (0 <= v <= 255)%Z -> format_02x v = two_hex_digits v.
Proof.
  intros Hv.
  assert (Hall : forallb (fun n => ustring_eqb (format_02x (Z.of_N n))
                                              (two_hex_digits (Z.of_N n)))
                         (below 256) = true) by (vm_compute; reflexivity).
  pose proof (@forallb_below _ 256 Hall (Z.to_N v)) as Hok.
  cbv beta in Hok. rewrite Z2N.id in Hok by lia.
  apply ustring_eqb_eq, Hok. lia.
Qed.

Lemma spec_darken_range (v : Z) :
  (0 <= v <= 255)%Z -> (0 <= spec_darken v <= 255)%Z.
Proof. unfold spec_darken. lia. Qed.

Section ColourClaims.
Context {U : UnicodeData}.

Lemma darker_of_hex_color (color : ustring) :
  is_hex_color color = true -> darker_of color = Some (spec_darker color).
Proof.
  intros Hc.
  destruct color as [|h [|r1 [|r2 [|g1 [|g2 [|b1 [|b2 [|? ?]]]]]]]];
    try discriminate Hc.
  unfold is_hex_color in Hc. simpl in Hc.
  repeat (apply andb_true_iff in Hc; destruct Hc as [? Hc]).
  match goal with H : (h =? hash)%N = true |- _ => apply N.eqb_eq in H; subst h end.
  unfold darker_of, lstrip_hash. simpl dropwhile.
  rewrite (@hex_digit_not_hash r1) by assumption.
  change (slice 0 2 [r1; r2; g1; g2; b1; b2]) with [r1; r2].
  change (slice 2 4 [r1; r2; g1; g2; b1; b2]) with [g1; g2].
  change (slice 4 6 [r1; r2; g1; g2; b1; b2]) with [b1; b2].
  destruct (@int_base16_two_digits U r1 r2) as [-> Hr]; try assumption.
  destruct (@int_base16_two_digits U g1 g2) as [-> Hg]; try assumption.
  destruct (@int_base16_two_digits U b1 b2) as [-> Hb]; try assumption.
  unfold spec_darker.
  rewrite !format_02x_two_digits by (apply spec_darken_range; assumption).
  reflexivity.
Qed.

(** C5, amended.  For a colour of six hexadecimal digits the hover shade
    is the colour with each of its red, green and blue bytes lessened by
    40, not below 0, and written back as two hexadecimal digits; #5F2EEA,
    that is (95, 46, 234), gives #3706c2, that is (55, 6, 194), and
    #101010, that is (16, 16, 16), gives #000000. *)
Theorem darker_shade_spec (color : ustring) :
  is_hex_color color = true ->
  darker_of color = Some (spec_darker color)
  /\ darker_of (lit "#5F2EEA") = Some (lit "#3706c2")
  /\ (spec_byte 0x35%N 0x46%N, spec_byte 0x32%N 0x45%N, spec_byte 0x45%N 0x41%N)
     = (95, 46, 234)%Z
  /\ (spec_darken 95, spec_darken 46, spec_darken 234) = (55, 6, 194)%Z
  /\ darker_of (lit "#101010") = Some (lit "#000000")
  /\ spec_byte 0x31%N 0x30%N = 16%Z /\ spec_darken 16 = 0%Z.
Proof.
  intros Hc. split; [now apply darker_of_hex_color|].
  repeat (split; [vm_compute; reflexivity|]). vm_compute; reflexivity.
Qed.

(** ** Archive *)

(** C1.  For a valid course specification the package is built, and it
    holds the three members imsmanifest.xml, scormapi.js and index.html,
    in this order and no other, each deflated and none in a directory. *)
Theorem package_has_three_entries (c : CourseSpec) :
  valid_CourseSpec c ->
  exists zip_data,
    package_of c = Some zip_data
    /\ map filename zip_data
       = [lit "imsmanifest.xml"; lit "scormapi.js"; lit "index.html"]
    /\ Forall (fun e => compress_type e = ZIP_DEFLATED) zip_data
    /\ Forall (fun e => at_archive_root e = true) zip_data.
Proof.
  intros (_ & _ & Hcolor & _).
  unfold package_of, create_scorm_package, generate_html.
  rewrite darker_of_hex_color by exact Hcolor.
  eexists. split; [reflexivity|].
  repeat split; repeat constructor.
Qed.
End ColourClaims.

(** C5 as worded fails: the shade of #5F2EEA is not #3f0aca. *)
Lemma darker_shade_not_3f0aca :
  is_hex_color (lit "#5F2EEA") = true
  /\ darker_of (U := Latin1Only) (lit "#5F2EEA") <> Some (lit "#3f0aca")
  /\ spec_darken 234 <> 202%Z.
Proof. repeat split; vm_compute; discriminate. Qed.

Lemma darker_shade_witness :
  is_hex_color (lit "#5F2EEA") = true
  /\ darker_of (U := Latin1Only) (lit "#5F2EEA") = Some (spec_darker (lit "#5F2EEA")).
Proof.
  split; [reflexivity|].
  apply (darker_shade_spec (U := Latin1Only) (lit "#5F2EEA")). reflexivity.
Defined.

Lemma demo_spec_valid : valid_CourseSpec demo_spec.
Proof.
  unfold valid_CourseSpec. simpl.
  repeat split; try discriminate; try reflexivity.
Defined.

Lemma package_has_three_entries_witness :
  exists zip_data,
    package_of (U := Latin1Only) demo_spec = Some zip_data
    /\ map filename zip_data
       = [lit "imsmanifest.xml"; lit "scormapi.js"; lit "index.html"]
    /\ Forall (fun e => compress_type e = ZIP_DEFLATED) zip_data
    /\ Forall (fun e => at_archive_root e = true) zip_data.
Proof.
  apply (@package_has_three_entries Latin1Only demo_spec).
  exact demo_spec_valid.
Defined.

(** ** Time formatting and parsing in the launcher script *)

Section TimeFacts.
Import Script.

Lemma digits_value_app (a b : ustring) :
  digits_value (a ++ b)
  = fold_left (fun v c => (10 * v + (Z.of_N c - 48))%Z) b (digits_value a).
Proof. unfold digits_value. apply fold_left_app. Qed.

Lemma digit_char_decimal (r : N) :
  (r < 10)%N ->
  is_digit (digit_char r) = true /\ (Z.of_N (digit_char r) - 48 = Z.of_N r)%Z.
Proof.
  intros Hr. unfold digit_char, is_digit, in_range.
  destruct (N.ltb_spec r 10) as [_|]; [|lia].
  split; [|lia].
  apply andb_true_iff. split; apply N.leb_le; lia.
Qed.

Lemma N_digits_fuel_decimal (f : nat) :
  forall n, (n < 2 ^ N.of_nat f)%N ->
    digit_string (N_digits_fuel (S f) 10 n)
    /\ digits_value (N_digits_fuel (S f) 10 n) = Z.of_N n.
Proof.
  induction f as [|f IH]; intros n Hn.
  - assert (n = 0%N) by (simpl in Hn; lia). subst n.
    split; [split; [discriminate|repeat constructor]|reflexivity].
  - change (N_digits_fuel (S (S f)) 10 n)
      with ((if (n <? 10)%N then [] else N_digits_fuel (S f) 10 (n / 10)%N)
            ++ [digit_char (n mod 10)%N]).
    assert (Hr : (n mod 10 < 10)%N) by (apply N.mod_lt; lia).
    destruct (digit_char_decimal Hr) as [Hd Hv].
    destruct (N.ltb_spec n 10) as [Hlt|Hge].
    + simpl. split; [split; [discriminate|repeat constructor; exact Hd]|].
      unfold digits_value. simpl. rewrite Hv, N.mod_small by exact Hlt. lia.
    + assert (Hq : (n / 10 < 2 ^ N.of_nat f)%N).
      { apply N.Div0.div_lt_upper_bound.
        rewrite Nat2N.inj_succ, N.pow_succ_r' in Hn. lia. }
      destruct (IH _ Hq) as [[Hne Hall] Hval].
      split; [split|].
      * destruct (N_digits_fuel (S f) 10 (n / 10)); [congruence|discriminate].
      * apply Forall_app. split; [exact Hall|repeat constructor; exact Hd].
      * rewrite digits_value_app, Hval. cbn [fold_left]. rewrite Hv.
        pose proof (N.Div0.div_mod n 10). lia.
Qed.

Lemma str_of_int_decimal (x : Z) :
  (0 <= x)%Z ->
  digit_string (str_of_int x) /\ digits_value (str_of_int x) = x.
Proof.
  intros Hx. unfold str_of_int, Z_to_text, N_digits.
  destruct (Z.ltb_spec x 0) as [|_]; [lia|].
  destruct (@N_digits_fuel_decimal (N.to_nat (N.size (Z.to_N x))) (Z.to_N x))
    as [Hd Hv].
  - rewrite N2Nat.id. apply N.size_gt.
  - split; [exact Hd|]. rewrite Hv. lia.
Qed.

Lemma digits_value_zeros (k : nat) (d : ustring) :
  digits_value (repeat zero_char k ++ d) = digits_value d.
Proof.
  rewrite digits_value_app. unfold digits_value at 2.
  assert (Hz : digits_value (repeat zero_char k) = 0%Z).
  { unfold digits_value.
    induction k as [|k IHk]; simpl; [reflexivity|exact IHk]. }
  now rewrite Hz.
Qed.

Lemma padded_decimal (w : nat) (x : Z) :
  (0 <= x)%Z ->
  digit_string (pad_zeros w (str_of_int x))
  /\ digits_value (pad_zeros w (str_of_int x)) = x.
Proof.
  intros Hx. destruct (str_of_int_decimal Hx) as [[Hne Hall] Hv].
  unfold pad_zeros. split; [split|].
  - intros E. apply app_eq_nil in E. destruct E as [_ E]. congruence.
  - apply Forall_app. split; [|exact Hall].
    apply Forall_forall. intros c Hc. apply repeat_spec in Hc. now subst c.
  - now rewrite digits_value_zeros.
Qed.
Lemma digits_value_shift (fr : ustring) (a : Z) :
  fold_left (fun v c => (10 * v + (Z.of_N c - 48))%Z) fr a
  = (a * 10 ^ Z.of_nat (length fr) + digits_value fr)%Z.
Proof.
  unfold digits_value. revert a.
  induction fr as [|c fr IH]; intros a.
  - cbn [fold_left length]. change (10 ^ Z.of_nat 0)%Z with 1%Z. lia.
  - cbn [fold_left length]. rewrite (IH (10 * a + (Z.of_N c - 48))%Z).
    rewrite (IH (10 * 0 + (Z.of_N c - 48))%Z).
    rewrite Nat2Z.inj_succ, Z.pow_succ_r by lia. ring.
Qed.

Lemma digits_value_bound (fr : ustring) :
  Forall (fun c => is_digit c = true) fr ->
  (0 <= digits_value fr < 10 ^ Z.of_nat (length fr))%Z.
Proof.
  induction 1 as [|c fr Hc _ IH].
  - change (digits_value []) with 0%Z. cbn [length].
    change (10 ^ Z.of_nat 0)%Z with 1%Z. lia.
  - unfold digits_value in *. cbn [fold_left length].
    rewrite digits_value_shift. unfold digits_value.
    rewrite Nat2Z.inj_succ, Z.pow_succ_r by lia.
    assert (Hd : (0 <= Z.of_N c - 48 <= 9)%Z).
    { unfold is_digit, in_range in Hc. apply andb_true_iff in Hc.
      destruct Hc as [H1 H2]. apply N.leb_le in H1, H2. lia. }
    assert (Hp : (0 < 10 ^ Z.of_nat (length fr))%Z) by (apply Z.pow_pos_nonneg; lia).
    nia.
Qed.

End TimeFacts.

Section DoubleFacts.
Import Script.
Local Open Scope Z_scope.

Lemma log2_ratio_below (a b : Z) :
  0 < a -> 0 < b -> pow2_le (log2_ratio a b) b a = true.
Proof.
  intros Ha Hb. unfold log2_ratio.
  destruct (pow2_le (Z.log2 a - Z.log2 b) b a) eqn:E; [exact E|].
  destruct (Z.log2_spec a Ha) as [La _].
  destruct (Z.log2_spec b Hb) as [_ Ub].
  pose proof (Z.log2_nonneg a) as Na. pose proof (Z.log2_nonneg b) as Nb.
  unfold pow2_le.
  destruct (Z.leb_spec 0 (Z.log2 a - Z.log2 b - 1)) as [Ht|Ht].
  - apply Z.leb_le.
    assert (Hp : 2 ^ Z.log2 a = 2 ^ (Z.log2 a - Z.log2 b - 1) * 2 ^ Z.succ (Z.log2 b)).
    { rewrite <- Z.pow_add_r by lia. f_equal. lia. }
    assert (0 < 2 ^ (Z.log2 a - Z.log2 b - 1)) by (apply Z.pow_pos_nonneg; lia).
    nia.
  - apply Z.leb_le.
    assert (Hp : 2 ^ (- (Z.log2 a - Z.log2 b - 1)) * 2 ^ Z.log2 a = 2 ^ Z.succ (Z.log2 b)).
    { rewrite <- Z.pow_add_r by lia. f_equal. lia. }
    assert (0 < 2 ^ (- (Z.log2 a - Z.log2 b - 1))) by (apply Z.pow_pos_nonneg; lia).
    nia.
Qed.

Lemma round_half_even_floor (P B S F : Z) :
  0 < P -> 0 < B -> B < 2 * P -> 0 <= S -> 0 <= F < B ->
  round_half_even ((S * B + F) * P) B / P = S.
Proof.
  intros HP HB HBP HS HF. unfold round_half_even.
  set (c := (S * B + F) * P).
  pose proof (Z.div_mod c B ltac:(lia)) as Hdm.
  pose proof (Z.mod_pos_bound c B HB) as Hr.
  set (q := c / B) in *. set (r := c mod B) in *.
  assert (Hlo : S * P <= q).
  { apply Z.div_le_lower_bound; [exact HB|]. unfold c. nia. }
  assert (Hhi : q < (S + 1) * P).
  { apply Z.div_lt_upper_bound; [exact HB|]. unfold c. nia. }
  assert (Hup : q = (S + 1) * P - 1 -> 2 * r < B).
  { intros Hq. assert (r = B - (B - F) * P) by (unfold c in Hdm; nia). nia. }
  assert (Hm : forall m, S * P <= m < (S + 1) * P -> m / P = S).
  { intros m Hm. symmetry. apply (Z.div_unique m P S (m - S * P)); lia. }
  destruct (Z.ltb_spec (2 * r) B) as [H1|H1]; [apply Hm; lia|].
  assert (q < (S + 1) * P - 1) by lia.
  destruct (B <? 2 * r); [apply Hm; lia|].
  destruct (Z.even q); apply Hm; lia.
Qed.

(** The quotient [(S * B + F) / B], rounded to a double and floored, is [S]
    as long as [(S + 1) * B] does not exceed 2^53. *)
Lemma floor_nearest_double (S B F : Z) :
  0 < B -> 0 <= S -> 0 <= F < B -> (S + 1) * B <= 2 ^ 53 ->
  Math_floor (nearest_double (S * B + F) B) = S.
Proof.
  intros HB HS HF Hlim. unfold nearest_double.
  destruct (Z.eqb_spec (S * B + F) 0) as [E|E].
  - unfold Math_floor. cbn. nia.
  - assert (Ha : 0 < S * B + F) by nia.
    rewrite Z.abs_eq by lia.
    pose proof (log2_ratio_below Ha HB) as Ht.
    set (t := log2_ratio (S * B + F) B) in *.
    assert (Hlt : S * B + F < 2 ^ 53) by nia.
    assert (Ht52 : t <= 52).
    { destruct (Z.le_gt_cases t 52) as [|Hgt]; [assumption|exfalso].
      unfold pow2_le in Ht. destruct (Z.leb_spec 0 t); [|lia].
      apply Z.leb_le in Ht.
      assert (2 ^ 53 <= 2 ^ t) by (apply Z.pow_le_mono_r; lia). nia. }
    set (g := Z.max (t - 52) (-1074)).
    assert (Hg : g <= 0) by (unfold g; lia).
    assert (HP : 0 < 2 ^ (- g)) by (apply Z.pow_pos_nonneg; lia).
    assert (HBP : B < 2 * 2 ^ (- g)).
    { change (2 * 2 ^ (- g)) with (2 ^ 1 * 2 ^ (- g)).
      rewrite <- Z.pow_add_r by lia.
      assert (HB53 : B <= 2 ^ 53) by nia.
      unfold pow2_le in Ht. destruct (Z.leb_spec 0 t) as [H0|H0].
      - apply Z.leb_le in Ht.
        assert (1 + - g = 53 - t) as -> by (unfold g; lia).
        assert (Hp : 2 ^ 53 = 2 ^ t * 2 ^ (53 - t)).
        { rewrite <- Z.pow_add_r by lia. f_equal. lia. }
        assert (0 < 2 ^ t) by (apply Z.pow_pos_nonneg; lia).
        nia.
      - assert (2 ^ 53 < 2 ^ (1 + - g)); [|lia].
        apply Z.pow_lt_mono_r; unfold g; lia. }
    assert (Hm : Math_floor
                   {| mantissa := if 0 <=? g
                                  then round_half_even (S * B + F) (B * 2 ^ g)
                                  else round_half_even ((S * B + F) * 2 ^ (- g)) B;
                      exponent := g |}
                 = round_half_even ((S * B + F) * 2 ^ (- g)) B / 2 ^ (- g)).
    { unfold Math_floor. cbn [mantissa exponent].
      destruct (Z.leb_spec 0 g) as [H0|H0]; [|reflexivity].
      assert (g = 0) as -> by lia.
      change (2 ^ (- 0)) with 1. change (2 ^ 0) with 1.
      rewrite !Z.mul_1_r, Z.div_1_r. reflexivity. }
    fold g. rewrite Hm.
    now apply round_half_even_floor.
Qed.

(** Dividing a count of seconds: the rounding of the quotient does not
    reach the next whole number. *)
Lemma floor_quotient_exact (s b : Z) :
  0 < b -> 0 <= s -> s + b <= 2 ^ 53 ->
  Math_floor (nearest_double s b) = s / b.
Proof.
  intros Hb Hs Hlim.
  pose proof (Z.div_mod s b ltac:(lia)) as Hdm.
  pose proof (Z.mod_pos_bound s b Hb) as Hr.
  assert (0 <= s / b) by (apply Z.div_pos; lia).
  replace s with (s / b * b + s mod b) at 1 by lia.
  apply floor_nearest_double; lia.
Qed.

Lemma round_int_exact (n : Z) : 0 <= n < 2 ^ 53 -> round_int n = n.
Proof.
  intros Hn. unfold round_int.
  replace n with (n * 1 + 0) at 1 by lia.
  apply floor_nearest_double; lia.
Qed.

Lemma times_exact (a b : Z) : 0 <= a * b < 2 ^ 53 -> times a b = a * b.
Proof. apply round_int_exact. Qed.

Lemma plus_exact (a b : Z) : 0 <= a + b < 2 ^ 53 -> plus a b = a + b.
Proof. apply round_int_exact. Qed.
End DoubleFacts.

Section ParseFacts.
Import Script.

Lemma digit_is_plain (c : uchar) :
  is_digit c = true ->
  js_isspace c = false /\ (c =? minus_sign)%N = false
  /\ (c =? plus_sign)%N = false /\ (c =? 58)%N = false.
Proof.
  intros Hc.
  assert (Hlt : (c < 58)%N).
  { unfold is_digit, in_range in Hc. apply andb_true_iff in Hc.
    destruct Hc as [_ Hc]. apply N.leb_le in Hc. lia. }
  assert (Hall : forallb (fun x => implb (is_digit x)
                   (negb (js_isspace x) && negb (x =? minus_sign)%N
                    && negb (x =? plus_sign)%N && negb (x =? 58)%N))
                   (below 58) = true) by (vm_compute; reflexivity).
  pose proof (@forallb_below _ 58 Hall c Hlt) as Hok.
  cbv beta in Hok. rewrite Hc in Hok. simpl in Hok.
  repeat (apply andb_true_iff in Hok; destruct Hok as [Hok ?]).
  repeat split; now apply negb_true_iff.
Qed.

Lemma span_digits_app (d r : ustring) :
  Forall (fun c => is_digit c = true) d -> not_digit_next r ->
  span_digits (d ++ r) = (d, r).
Proof.
  intros Hd Hr. induction Hd as [|c d Hc _ IH]; cbn [app span_digits].
  - destruct r as [|c t]; [reflexivity|]. cbn [span_digits].
    unfold not_digit_next in Hr. now rewrite Hr.
  - now rewrite Hc, IH.
Qed.

Lemma parseInt10_digit_string (d : ustring) :
  digit_string d -> (digits_value d < 2 ^ 53)%Z ->
  parseInt10 d = Some (digits_value d).
Proof.
  intros [Hne Hall] Hlt. destruct d as [|c t]; [congruence|].
  pose proof (digits_value_bound Hall) as [Hpos _].
  pose proof Hall as Hall'.
  inversion Hall' as [|? ? Hc _]; subst.
  destruct (@digit_is_plain c Hc) as (Hs & Hm & Hp & _).
  unfold parseInt10. simpl dropwhile. rewrite Hs.
  unfold take_sign. rewrite Hm, Hp.
  rewrite <- (app_nil_r (c :: t)) at 1.
  rewrite (@span_digits_app (c :: t) [] Hall I).
  unfold signed. now rewrite round_int_exact by lia.
Qed.

(** The literal of a seconds field with a fraction of any length. *)
Lemma read_decimal_fraction (d fr : ustring) :
  digit_string d -> Forall (fun c => is_digit c = true) fr ->
  read_decimal (d ++ 46%N :: fr)
  = Some {| dec_mantissa := digits_value (d ++ fr);
            dec_exponent := 0 - Z.of_nat (length fr) |}.
Proof.
  intros [Hne Hall] Hfr. destruct d as [|c t]; [congruence|].
  pose proof Hall as Hall'.
  inversion Hall' as [|? ? Hc _]; subst.
  destruct (@digit_is_plain c Hc) as (Hs & Hm & Hp & _).
  unfold read_decimal.
  change ((c :: t) ++ 46%N :: fr) with (c :: t ++ 46%N :: fr).
  simpl dropwhile. rewrite Hs.
  unfold take_sign. rewrite Hm, Hp.
  change (c :: t ++ 46%N :: fr) with ((c :: t) ++ 46%N :: fr).
  rewrite (@span_digits_app (c :: t) (46%N :: fr) Hall) by reflexivity.
  rewrite N.eqb_refl.
  rewrite <- (app_nil_r fr) at 1.
  rewrite (@span_digits_app fr [] Hfr I).
  change ((c :: t) ++ fr) with (c :: t ++ fr).
  reflexivity.
Qed.

(** The literal of a seconds field without fraction. *)
Lemma read_decimal_whole (d : ustring) :
  digit_string d ->
  read_decimal d = Some {| dec_mantissa := digits_value d; dec_exponent := 0 |}.
Proof.
  intros [Hne Hall]. destruct d as [|c t]; [congruence|].
  pose proof Hall as Hall'.
  inversion Hall' as [|? ? Hc _]; subst.
  destruct (@digit_is_plain c Hc) as (Hs & Hm & Hp & _).
  unfold read_decimal. simpl dropwhile. rewrite Hs.
  unfold take_sign. rewrite Hm, Hp.
  rewrite <- (app_nil_r (c :: t)) at 1.
  rewrite (@span_digits_app (c :: t) [] Hall I).
  rewrite app_nil_r. reflexivity.
Qed.

(** The fraction of a seconds field is dropped as long as the double
    nearest to the field is not the next whole number: for seconds [S] and
    [k] digits of fraction, when [(S + 1) * 10 ^ k <= 2 ^ 53]. *)
Lemma parseFloat_fraction (d fr : ustring) :
  digit_string d -> Forall (fun c => is_digit c = true) fr ->
  ((digits_value d + 1) * 10 ^ Z.of_nat (length fr) <= 2 ^ 53)%Z ->
  exists x,
    parseFloat (d ++ 46%N :: fr) = Some x /\ Math_floor x = digits_value d.
Proof.
  intros Hd Hfr Hlim. unfold parseFloat.
  rewrite (read_decimal_fraction Hd Hfr). cbn [option_map].
  eexists. split; [reflexivity|].
  unfold double_of_decimal. cbn [dec_mantissa dec_exponent].
  rewrite digits_value_app, digits_value_shift.
  pose proof (digits_value_bound Hfr) as Hb.
  pose proof (digits_value_bound (proj2 Hd)) as [Hpos _].
  destruct (Z.leb_spec 0 (0 - Z.of_nat (length fr))) as [H0|H0].
  - assert (Hl : length fr = 0) by lia.
    destruct fr; [|discriminate Hl].
    cbn [length] in *. change (digits_value []) with 0%Z.
    change (0 - Z.of_nat 0)%Z with 0%Z.
    change (10 ^ Z.of_nat 0)%Z with 1%Z in *. change (10 ^ 0)%Z with 1%Z.
    rewrite Z.add_0_r, !Z.mul_1_r.
    replace (digits_value d) with (digits_value d * 1 + 0)%Z at 1 by lia.
    apply floor_nearest_double; lia.
  - replace (- (0 - Z.of_nat (length fr)))%Z with (Z.of_nat (length fr)) by lia.
    apply floor_nearest_double; lia.
Qed.

Lemma parseFloat_whole (d : ustring) :
  digit_string d -> (digits_value d < 2 ^ 53)%Z ->
  exists x, parseFloat d = Some x /\ Math_floor x = digits_value d.
Proof.
  intros Hd Hlim. unfold parseFloat.
  rewrite (read_decimal_whole Hd). cbn [option_map].
  eexists. split; [reflexivity|].
  unfold double_of_decimal. cbn [dec_mantissa dec_exponent].
  pose proof (digits_value_bound (proj2 Hd)) as [Hpos _].
  change (0 <=? 0)%Z with true. cbv iota.
  change (10 ^ 0)%Z with 1%Z. rewrite Z.mul_1_r.
  replace (digits_value d) with (digits_value d * 1 + 0)%Z at 1 by lia.
  apply floor_nearest_double; lia.
Qed.

Lemma split_colon_field (a r : ustring) :
  Forall (fun c => (c =? 58)%N = false) a ->
  split_colon (a ++ 58%N :: r) = a :: split_colon r.
Proof.
  induction 1 as [|c a Hc _ IH]; simpl; [reflexivity|].
  now rewrite Hc, IH.
Qed.

Lemma split_colon_last (a : ustring) :
  Forall (fun c => (c =? 58)%N = false) a -> split_colon a = [a].
Proof.
  induction 1 as [|c a Hc _ IH]; simpl; [reflexivity|].
  now rewrite Hc, IH.
Qed.

Lemma digit_string_no_colon (d : ustring) :
  digit_string d -> Forall (fun c => (c =? 58)%N = false) d.
Proof.
  intros [_ Hall]. eapply Forall_impl; [|exact Hall].
  intros c Hc. now destruct (@digit_is_plain c Hc) as (_ & _ & _ & ?).
Qed.

Lemma length_pad_zeros (w : nat) (d : ustring) :
  length (pad_zeros w d) = Nat.max w (length d).
Proof. unfold pad_zeros. rewrite length_app, repeat_length. lia. Qed.

Lemma two_digits_below_60 (x : Z) :
  (0 <= x < 60)%Z -> length (pad_zeros 2 (str_of_int x)) = 2.
Proof.
  intros Hx.
  assert (Hall : forallb (fun n => Nat.eqb (length (pad_zeros 2 (str_of_int (Z.of_N n)))) 2)
                         (below 60) = true) by (vm_compute; reflexivity).
  pose proof (@forallb_below _ 60 Hall (Z.to_N x)) as Hok.
  cbv beta in Hok. rewrite Z2N.id in Hok by lia.
  apply Nat.eqb_eq, Hok. lia.
Qed.

Lemma time_fields (s : Z) :
  (0 <= s)%Z ->
  (0 <= s / 3600 /\ 0 <= Z.rem s 3600 / 60 < 60 /\ 0 <= Z.rem s 60 < 60
   /\ s / 3600 * 3600 + Z.rem s 3600 / 60 * 60 + Z.rem s 60 = s)%Z.
Proof.
  intros Hs. rewrite !Z.rem_mod_nonneg by lia.
  pose proof (Z.div_mod s 3600). pose proof (Z.mod_pos_bound s 3600).
  pose proof (Z.div_mod (s mod 3600) 60). pose proof (Z.mod_pos_bound (s mod 3600) 60).
  pose proof (Z.div_mod s 60). pose proof (Z.mod_pos_bound s 60).
  assert (0 <= s / 3600)%Z by (apply Z.div_pos; lia).
  assert (0 <= s mod 3600 / 60)%Z by (apply Z.div_pos; lia).
  assert (0 <= s / 60)%Z by (apply Z.div_pos; lia).
  lia.
Qed.
End ParseFacts.

Section TimeClaims.
Import Script.

Lemma formatScormTime_fields (s : Z) :
  (0 <= s)%Z ->
  exists hh mm ss,
    formatScormTime s = hh ++ colon ++ mm ++ colon ++ ss ++ lit ".00"
    /\ digit_string hh /\ 4 <= length hh /\ digits_value hh = (s / 3600)%Z
    /\ digit_string mm /\ length mm = 2
    /\ digits_value mm = (Z.rem s 3600 / 60)%Z
    /\ digit_string ss /\ length ss = 2 /\ digits_value ss = Z.rem s 60.
Proof.
  intros Hs. destruct (time_fields Hs) as (Hh & Hm & Hsec & _).
  exists (pad_zeros 4 (str_of_int (s / 3600))),
         (pad_zeros 2 (str_of_int (Z.rem s 3600 / 60))),
         (pad_zeros 2 (str_of_int (Z.rem s 60))).
  destruct (padded_decimal 4 Hh) as [Dh Vh].
  destruct (padded_decimal 2 (proj1 Hm)) as [Dm Vm].
  destruct (padded_decimal 2 (proj1 Hsec)) as [Ds Vs].
  refine (conj eq_refl (conj Dh (conj _ (conj Vh (conj Dm (conj _
            (conj Vm (conj Ds (conj _ Vs))))))))).
  - rewrite length_pad_zeros. lia.
  - now apply two_digits_below_60.
  - now apply two_digits_below_60.
Qed.

(** The sum the parser forms when no step of it leaves the whole numbers
    that doubles hold exactly. *)
Lemma parsed_total (h m x : Z) :
  (0 <= h)%Z -> (0 <= m)%Z -> (0 <= x)%Z ->
  (h * 3600 + m * 60 + x < 2 ^ 53)%Z ->
  plus (plus (times h 3600) (times m 60)) x = (h * 3600 + m * 60 + x)%Z.
Proof.
  intros Hh Hm Hx Hlt.
  rewrite (@times_exact h 3600) by lia.
  rewrite (@times_exact m 60) by lia.
  rewrite (@plus_exact (h * 3600) (m * 60)) by lia.
  apply plus_exact. lia.
Qed.

Lemma parseScormTime_fields (hh mm ss fraction : ustring) :
  digit_string hh -> digit_string mm -> digit_string ss ->
  Forall (fun c => is_digit c = true) fraction ->
  ((digits_value ss + 1) * 10 ^ Z.of_nat (length fraction) <= 2 ^ 53)%Z ->
  (digits_value hh * 3600 + digits_value mm * 60 + digits_value ss < 2 ^ 53)%Z ->
  parseScormTime (hh ++ colon ++ mm ++ colon ++ ss ++ lit "." ++ fraction)
  = (digits_value hh * 3600 + digits_value mm * 60 + digits_value ss)%Z
  /\ parseScormTime (hh ++ colon ++ mm ++ colon ++ ss)
     = (digits_value hh * 3600 + digits_value mm * 60 + digits_value ss)%Z.
Proof.
  intros Dh Dm Ds Hfr Hlim Hlt.
  pose proof (digits_value_bound (proj2 Dh)) as [Ph _].
  pose proof (digits_value_bound (proj2 Dm)) as [Pm _].
  pose proof (digits_value_bound (proj2 Ds)) as [Ps _].
  assert (Hne : forall r, is_empty (hh ++ r) = false).
  { intros r. destruct Dh as [Hne _]. destruct hh; [congruence|reflexivity]. }
  assert (Hfr58 : Forall (fun c => (c =? 58)%N = false) fraction).
  { eapply Forall_impl; [|exact Hfr].
    intros c Hc. now destruct (@digit_is_plain c Hc) as (_ & _ & _ & ?). }
  assert (Ih : parseInt10 hh = Some (digits_value hh))
    by (apply parseInt10_digit_string; [exact Dh|lia]).
  assert (Im : parseInt10 mm = Some (digits_value mm))
    by (apply parseInt10_digit_string; [exact Dm|lia]).
  split.
  - unfold parseScormTime. rewrite Hne.
    change colon with [58%N]. change (lit ".") with [46%N]. cbn [app].
    rewrite (split_colon_field _ (digit_string_no_colon Dh)).
    rewrite (split_colon_field _ (digit_string_no_colon Dm)).
    rewrite split_colon_last.
    + rewrite Ih, Im.
      destruct (parseFloat_fraction Ds Hfr Hlim) as (x & Hp & Hf).
      match goal with
      | |- context [parseFloat ?y] =>
          replace (parseFloat y) with (Some x) by (symmetry; exact Hp)
      end.
      rewrite Hf. cbn [or_zero]. now apply parsed_total.
    + apply Forall_app. split; [now apply digit_string_no_colon|].
      constructor; [reflexivity|exact Hfr58].
  - unfold parseScormTime. rewrite Hne.
    change colon with [58%N]. cbn [app].
    rewrite (split_colon_field _ (digit_string_no_colon Dh)).
    rewrite (split_colon_field _ (digit_string_no_colon Dm)).
    rewrite split_colon_last by now apply digit_string_no_colon.
    rewrite Ih, Im.
    destruct (@parseFloat_whole ss Ds ltac:(lia)) as (x & Hp & Hf).
    match goal with
    | |- context [parseFloat ?y] =>
        replace (parseFloat y) with (Some x) by (symmetry; exact Hp)
    end.
    rewrite Hf. cbn [or_zero]. now apply parsed_total.
Qed.

(** C6, amended.  The SCORM-time formatter writes a whole number of
    seconds as hours on at least four digits, minutes and seconds on two,
    and the fraction .00; 3661 gives "0001:01:01.00".  The parser reads
    hours, minutes and seconds written in digits, with or without a
    fraction, as hours * 3600 + minutes * 60 + seconds, the fraction
    dropped, as long as the numbers stay where doubles are exact: the
    total below 2^53 and, for seconds S followed by k digits of fraction,
    (S + 1) * 10^k at most 2^53 (fifteen digits in all are always within
    it); so "0001:01:01.50" gives 3661.  For every count of seconds
    [0 <= s < 2^53], parsing what the formatter writes gives [s] back. *)
Theorem scorm_time_round_trip (s : Z) (hours minutes seconds fraction : ustring) :
  (0 <= s < 2 ^ 53)%Z ->
  digit_string hours -> digit_string minutes -> digit_string seconds ->
  Forall (fun c => is_digit c = true) fraction ->
  ((digits_value seconds + 1) * 10 ^ Z.of_nat (length fraction) <= 2 ^ 53)%Z ->
  (digits_value hours * 3600 + digits_value minutes * 60 + digits_value seconds
   < 2 ^ 53)%Z ->
  formatScormTime 3661 = lit "0001:01:01.00"
  /\ parseScormTime (lit "0001:01:01.50") = 3661%Z
  /\ (exists hh mm ss,
        formatScormTime s = hh ++ colon ++ mm ++ colon ++ ss ++ lit ".00"
        /\ digit_string hh /\ 4 <= length hh /\ digits_value hh = (s / 3600)%Z
        /\ digit_string mm /\ length mm = 2
        /\ digits_value mm = (Z.rem s 3600 / 60)%Z
        /\ digit_string ss /\ length ss = 2 /\ digits_value ss = Z.rem s 60)
  /\ parseScormTime (hours ++ colon ++ minutes ++ colon ++ seconds
                     ++ lit "." ++ fraction)
     = (digits_value hours * 3600 + digits_value minutes * 60
        + digits_value seconds)%Z
  /\ parseScormTime (hours ++ colon ++ minutes ++ colon ++ seconds)
     = (digits_value hours * 3600 + digits_value minutes * 60
        + digits_value seconds)%Z
  /\ parseScormTime (formatScormTime s) = s.
Proof.
  intros Hs Dh Dm Dsec Hfr Hlim Hlt.
  assert (Hs0 : (0 <= s)%Z) by lia.
  split; [vm_compute; reflexivity|].
  split; [vm_compute; reflexivity|].
  split; [now apply formatScormTime_fields|].
  destruct (parseScormTime_fields Dh Dm Dsec Hfr Hlim Hlt) as [Hwith Hwithout].
  split; [exact Hwith|]. split; [exact Hwithout|].
  destruct (formatScormTime_fields Hs0)
    as (hh & mm & ss & -> & Dh' & _ & Vh & Dm' & _ & Vm & Ds' & _ & Vs).
  destruct (time_fields Hs0) as (_ & _ & Hsec & Hsum).
  assert (F00 : Forall (fun c => is_digit c = true) (lit "00"))
    by (repeat constructor).
  assert (Hlim' : ((digits_value ss + 1) * 10 ^ Z.of_nat (length (lit "00"))
                   <= 2 ^ 53)%Z).
  { rewrite Vs. change (10 ^ Z.of_nat (length (lit "00")))%Z with 100%Z.
    change (2 ^ 53)%Z with 9007199254740992%Z. lia. }
  assert (Hlt' : (digits_value hh * 3600 + digits_value mm * 60 + digits_value ss
                  < 2 ^ 53)%Z) by (rewrite Vh, Vm, Vs; lia).
  destruct (parseScormTime_fields Dh' Dm' Ds' F00 Hlim' Hlt') as [Hround _].
  change (lit ".00") with (lit "." ++ lit "00").
  rewrite Hround, Vh, Vm, Vs. exact Hsum.
Qed.
End TimeClaims.

(** C6 as worded fails: sixteen nines after the seconds make the field the
    next whole second, so the fraction is not dropped; and a count of
    seconds above 2^53 does not come back from its own text. *)
Lemma scorm_time_not_exact :
  Script.parseScormTime (lit "0001:01:01.9999999999999999") = 3662%Z
  /\ Script.parseScormTime (lit "0001:01:01.9999999999999999")
     <> (1 * 3600 + 1 * 60 + 1)%Z
  /\ Script.formatScormTime 36035621472187864 = lit "10009894853385:31:04.00"
  /\ Script.parseScormTime (Script.formatScormTime 36035621472187864)
     = 36035621472187856%Z
  /\ Script.parseScormTime (Script.formatScormTime 36035621472187864)
     <> 36035621472187864%Z.
Proof. repeat split; vm_compute; (reflexivity || discriminate). Qed.

Lemma scorm_time_round_trip_witness :
  Script.parseScormTime (Script.formatScormTime 3661) = 3661%Z
  /\ Script.parseScormTime (lit "0002" ++ Script.colon ++ lit "03" ++ Script.colon
                            ++ lit "04" ++ lit "." ++ lit "999")
     = 7384%Z.
Proof.
  assert (Hs : (0 <= 3661 < 2 ^ 53)%Z)
    by (split; vm_compute; [discriminate|reflexivity]).
  assert (D4 : digit_string (lit "0002")) by (split; [discriminate|repeat constructor]).
  assert (D3 : digit_string (lit "03")) by (split; [discriminate|repeat constructor]).
  assert (D2 : digit_string (lit "04")) by (split; [discriminate|repeat constructor]).
  assert (F : Forall (fun c => Script.is_digit c = true) (lit "999"))
    by (repeat constructor).
  assert (Hlim : ((Script.digits_value (lit "04") + 1)
                  * 10 ^ Z.of_nat (length (lit "999")) <= 2 ^ 53)%Z)
    by (vm_compute; discriminate).
  assert (Hlt : (Script.digits_value (lit "0002") * 3600
                 + Script.digits_value (lit "03") * 60
                 + Script.digits_value (lit "04") < 2 ^ 53)%Z)
    by (vm_compute; reflexivity).
  destruct (@scorm_time_round_trip 3661 (lit "0002") (lit "03") (lit "04")
              (lit "999") Hs D4 D3 D2 F Hlim Hlt)
    as (_ & _ & _ & Hfrac & _ & Hround).
  split; [exact Hround|exact Hfrac].
Defined.

(** ** Restore *)

Section RestoreClaims.
Import Script.
Context {H : Host}.

Lemma totalSeconds_restored (v : Z) (st : State) :
  totalSeconds (updateTimerDisplay (set_totalSeconds v st)) = v.
Proof. reflexivity. Qed.

Lemma initialized_restored (v : Z) (st : State) :
  SCORM_isInitialized (updateTimerDisplay (set_totalSeconds v st))
  = SCORM_isInitialized st.
Proof. reflexivity. Qed.

(** C7.  On a freshly loaded page whose SCORM session is initialized, with
    suspend data that parse to a total [t >= 0], the restored
    [totalSeconds] is the larger of [t] and of the seconds parsed from
    cmi.core.total_time; it is not their sum when both are positive; 500
    and 700 restore 700. *)
Theorem restore_takes_maximum (st : State) (t : Z) :
  SCORM_isInitialized st = true ->
  totalSeconds st = 0%Z ->
  LMSGetValue (lit "cmi.suspend_data") <> [] ->
  JSON_parse (LMSGetValue (lit "cmi.suspend_data")) = Object (Some t) ->
  (0 <= t)%Z ->
  totalSeconds (loadTimeFromScorm st)
  = Z.max t (parseScormTime (LMSGetValue (lit "cmi.core.total_time")))
  /\ ((0 < t)%Z ->
      (0 < parseScormTime (LMSGetValue (lit "cmi.core.total_time")))%Z ->
      totalSeconds (loadTimeFromScorm st)
      <> (t + parseScormTime (LMSGetValue (lit "cmi.core.total_time")))%Z)
  /\ (t = 500%Z ->
      parseScormTime (LMSGetValue (lit "cmi.core.total_time")) = 700%Z ->
      totalSeconds (loadTimeFromScorm st) = 700%Z).
Proof.
  intros Hinit Hzero Hne Hparse Ht.
  assert (Hmax : totalSeconds (loadTimeFromScorm st)
                 = Z.max t (parseScormTime (LMSGetValue (lit "cmi.core.total_time")))).
  { unfold loadTimeFromScorm, SCORM_getValue. rewrite Hinit.
    rewrite (is_empty_false Hne), Hparse. cbn [negb].
    destruct (Z.eqb_spec t 0) as [->|Hnz].
    - rewrite Hinit.
      destruct (LMSGetValue (lit "cmi.core.total_time")) as [|c r] eqn:E.
      + cbn [is_empty negb]. rewrite Hzero. reflexivity.
      + cbn [is_empty negb]. rewrite Hzero.
        destruct (Z.gtb_spec (parseScormTime (c :: r)) 0);
          rewrite ?totalSeconds_restored; lia.
    - rewrite initialized_restored, Hinit.
      destruct (LMSGetValue (lit "cmi.core.total_time")) as [|c r] eqn:E.
      + cbn [is_empty negb]. rewrite totalSeconds_restored.
        change (parseScormTime []) with 0%Z. lia.
      + cbn [is_empty negb]. rewrite totalSeconds_restored.
        destruct (Z.gtb_spec (parseScormTime (c :: r)) t);
          rewrite ?totalSeconds_restored; lia. }
  rewrite Hmax. repeat split; lia.
Qed.
End RestoreClaims.

Lemma restore_takes_maximum_witness :
  Script.totalSeconds (Script.loadTimeFromScorm (H := lms_500_700) initialized_state)
  = 700%Z.
Proof.
  assert (Hne : Script.LMSGetValue (Host := lms_500_700) (lit "cmi.suspend_data") <> [])
    by (vm_compute; discriminate).
  assert (Ht : (0 <= 500)%Z) by lia.
  destruct (@restore_takes_maximum lms_500_700 initialized_state 500
              eq_refl eq_refl Hne eq_refl Ht) as (_ & _ & H700).
  apply H700; reflexivity.
Defined.

(** ** Minimum-time gate *)

Section GateFacts.
Import Script.





End GateFacts.

Section GateClaims.
Import Script.
Context {U : UnicodeData}.

Lemma effects_emit (e : list Effect) (st : State) :
  effects (emit e st) = effects st ++ e.
Proof. reflexivity. Qed.

Lemma initialized_emit (e : list Effect) (st : State) :
  SCORM_isInitialized (emit e st) = SCORM_isInitialized st.
Proof. reflexivity. Qed.

Lemma initialized_setValue (element : ustring) (value : JsValue) (st : State) :
  SCORM_isInitialized (SCORM_setValue element value st) = SCORM_isInitialized st.
Proof.
  unfold SCORM_setValue. destruct (SCORM_isInitialized st) eqn:E.
  - now rewrite initialized_emit.
  - exact E.
Qed.

Lemma initialized_commit (st : State) :
  SCORM_isInitialized (commitTimeToScorm st) = SCORM_isInitialized st.
Proof.
  unfold commitTimeToScorm. destruct (SCORM_isInitialized st) eqn:E.
  - now rewrite !initialized_setValue.
  - exact E.
Qed.

Lemma initialized_pause (st : State) :
  SCORM_isInitialized (pauseTimer st) = SCORM_isInitialized st.
Proof.
  unfold pauseTimer. destruct (isTimerRunning st); cbn [negb]; [|reflexivity].
  now rewrite initialized_commit.
Qed.


Lemma status_after_completion (st : State) :
  statusValue (confirm_and_complete true st) = lit "Completed"
  /\ statusCompleted (confirm_and_complete true st) = true.
Proof. unfold confirm_and_complete. split; reflexivity. Qed.


End GateClaims.



(** * Further properties of the generator *)

Section SanitizerMore.
Context {U : UnicodeData}.

Lemma scan_nonempty (b : bool) (c : uchar) (s : ustring) :
  (b = true -> py_isspace c = false) ->
  re_sub_class_plus_scan py_isspace (lit "_") b (c :: s) <> [].
Proof.
  intros Hb. cbn [re_sub_class_plus_scan].
  destruct (py_isspace c) eqn:Hc.
  - destruct b; [specialize (Hb eq_refl); discriminate|discriminate].
  - discriminate.
Qed.

(** X1.  The names the sanitizer leaves alone are exactly those of at most
    50 characters, each a word character or a hyphen and none whitespace. *)
Theorem sanitize_filename_fixed_iff (x : ustring) :
  sanitize_filename x = x
  <-> length x <= 50
      /\ Forall (fun c => py_isspace c = false /\ (re_word c = true \/ c = hyphen)) x.
Proof.
  split.
  - intros Hx. split.
    + rewrite <- Hx. apply sanitize_length.
    + rewrite <- Hx. apply sanitize_chars.
  - intros [Hlen Hall].
    unfold sanitize_filename, re_sub_class_plus.
    rewrite re_sub_class_fixed.
    + rewrite scan_fixed.
      * now apply firstn_all2.
      * eapply Forall_impl; [|exact Hall]. simpl. tauto.
    + eapply Forall_impl; [|exact Hall].
      intros c [Hns [Hw| ->]]; unfold not_word_space_hyphen.
      * now rewrite Hw.
      * reflexivity.
Qed.

(** X2.  The sanitizer returns the empty name exactly when the input has no
    word character, no whitespace and no hyphen: a title made of symbols
    only passes validation and still gives an empty identifier. *)
Theorem sanitize_filename_empty_iff (name : ustring) :
  sanitize_filename name = []
  <-> Forall (fun c => spec_retained c = false) name.
Proof.
  unfold sanitize_filename, re_sub_class_plus. rewrite removed_is_filter.
  split.
  - intros Hempty.
    destruct (filter spec_retained name) as [|c r] eqn:Hf.
    + apply Forall_forall. intros c Hc.
      destruct (spec_retained c) eqn:Hk; [|reflexivity].
      assert (Hin : In c (filter spec_retained name)) by (apply filter_In; auto).
      rewrite Hf in Hin. destruct Hin.
    + exfalso.
      assert (Hne : re_sub_class_plus_scan py_isspace (lit "_") false (c :: r) <> [])
        by (apply scan_nonempty; discriminate).
      destruct (re_sub_class_plus_scan py_isspace (lit "_") false (c :: r));
        [congruence|discriminate Hempty].
  - intros Hall.
    assert (Hf : filter spec_retained name = []).
    { induction Hall as [|c r Hc _ IH]; simpl; [reflexivity|]. now rewrite Hc. }
    now rewrite Hf.
Qed.
End SanitizerMore.

Section ValidationMore.
Context {U : UnicodeData}.

(** X3.  Validation reports nothing exactly when the title is not empty
    once trimmed and the URL, as entered, starts with http:// or
    https://. *)
Theorem validate_passes_iff (title url : ustring) :
  validate title url = []
  <-> strip title <> [] /\ has_scheme url = true.
Proof.
  unfold validate. split.
  - destruct (strip title) as [|c t]; cbn [is_empty app].
    + destruct (is_empty (strip url)); [discriminate|].
      destruct (has_scheme url); discriminate.
    + destruct (is_empty (strip url)); [discriminate|].
      destruct (has_scheme url); [|discriminate].
      intros _. split; [discriminate|reflexivity].
  - intros [Ht Hs].
    assert (Hu : is_empty (strip url) = false).
    { apply has_scheme_strip in Hs. destruct (strip url); [discriminate Hs|reflexivity]. }
    now rewrite (is_empty_false Ht), Hu, Hs.
Qed.

(** X5.  A colour text with fewer than five characters after its leading
    hashes (the CSS shorthand #FFF, say) cannot be read: no page is
    generated. *)
Theorem short_color_fails (title url color sub info : ustring) (dur minutes : Z)
        (gate : bool) :
  length (lstrip_hash color) < 5 ->
  darker_of color = None
  /\ generate_html title url color dur gate minutes sub info = None.
Proof.
  intros Hlen.
  assert (Hd : darker_of color = None).
  { unfold darker_of.
    assert (Hs : slice 4 6 (lstrip_hash color) = []).
    { unfold slice. rewrite skipn_all2 by lia. reflexivity. }
    rewrite Hs.
    change (int_base16 []) with (@None Z).
    destruct (int_base16 (slice 0 2 (lstrip_hash color)));
      destruct (int_base16 (slice 2 4 (lstrip_hash color))); reflexivity. }
  split; [exact Hd|]. unfold generate_html. now rewrite Hd.
Qed.
End ValidationMore.

Lemma short_color_fails_witness :
  darker_of (U := Latin1Only) (lit "#FFF") = None.
Proof.
  apply (@short_color_fails Latin1Only [] [] (lit "#FFF") [] [] 60 0 false).
  simpl. lia.
Defined.

Lemma two_hex_digits_byte (v : Z) :
  (0 <= v <= 255)%Z ->
  is_hex_digit (digit_char (Z.to_N (v / 16))) = true
  /\ is_hex_digit (digit_char (Z.to_N (v mod 16))) = true
  /\ spec_byte (digit_char (Z.to_N (v / 16))) (digit_char (Z.to_N (v mod 16))) = v.
Proof.
  intros Hv.
  assert (Hall : forallb (fun n =>
            let v := Z.of_N n in
            is_hex_digit (digit_char (Z.to_N (v / 16)))
            && is_hex_digit (digit_char (Z.to_N (v mod 16)))
            && (spec_byte (digit_char (Z.to_N (v / 16)))
                          (digit_char (Z.to_N (v mod 16))) =? v)%Z)
          (below 256) = true) by (vm_compute; reflexivity).
  pose proof (@forallb_below _ 256 Hall (Z.to_N v)) as Hok.
  cbv beta zeta in Hok. rewrite Z2N.id in Hok by lia.
  assert (Hlt : (Z.to_N v < N.of_nat 256)%N) by lia.
  specialize (Hok Hlt).
  apply andb_true_iff in Hok. destruct Hok as [Hok Hb].
  apply andb_true_iff in Hok. destruct Hok as [Hhi Hlo].
  apply Z.eqb_eq in Hb. auto.
Qed.

Section PackageMore.
Context {U : UnicodeData}.

(** X6.  The hover shade of a six-digit colour is again a six-digit colour,
    its three bytes those of the colour lessened by 40 and not below 0, so
    no channel of the shade is brighter than the colour's. *)
Theorem darker_is_valid_color (color : ustring) :
  is_hex_color color = true ->
  exists shade,
    darker_of color = Some shade
    /\ is_hex_color shade = true
    /\ (let '(r, g, b) := color_channels color in
        color_channels shade = (spec_darken r, spec_darken g, spec_darken b)
        /\ (0 <= spec_darken r <= r)%Z /\ (0 <= spec_darken g <= g)%Z
        /\ (0 <= spec_darken b <= b)%Z).
Proof.
  intros Hc. exists (spec_darker color).
  split; [now apply darker_of_hex_color|].
  destruct color as [|h [|r1 [|r2 [|g1 [|g2 [|b1 [|b2 [|? ?]]]]]]]];
    try discriminate Hc.
  unfold is_hex_color in Hc. cbn [forallb] in Hc.
  repeat (apply andb_true_iff in Hc; destruct Hc as [? Hc]).
  destruct (@int_base16_two_digits U r1 r2) as [_ Hr]; try assumption.
  destruct (@int_base16_two_digits U g1 g2) as [_ Hg]; try assumption.
  destruct (@int_base16_two_digits U b1 b2) as [_ Hb]; try assumption.
  destruct (two_hex_digits_byte (spec_darken_range Hr)) as (R1 & R2 & R3).
  destruct (two_hex_digits_byte (spec_darken_range Hg)) as (G1 & G2 & G3).
  destruct (two_hex_digits_byte (spec_darken_range Hb)) as (B1 & B2 & B3).
  unfold spec_darker, two_hex_digits. cbn [app color_channels is_hex_color forallb].
  rewrite R1, R2, R3, G1, G2, G3, B1, B2, B3.
  split; [reflexivity|].
  split; [reflexivity|].
  unfold spec_darken. lia.
Qed.

End PackageMore.

Lemma darker_is_valid_color_witness :
  exists shade,
    darker_of (U := Latin1Only) (lit "#5F2EEA") = Some shade
    /\ is_hex_color shade = true.
Proof.
  destruct (@darker_is_valid_color Latin1Only (lit "#5F2EEA") eq_refl)
    as (shade & Hs & Hv & _).
  exists shade. split; assumption.
Defined.



(** * Further properties of the launcher script *)

Section TimeMore.
Import Script.

Lemma two_digits_below_100 (x : Z) :
  (0 <= x < 100)%Z -> length (pad_zeros 2 (str_of_int x)) = 2.
Proof.
  intros Hx.
  assert (Hall : forallb (fun n => Nat.eqb (length (pad_zeros 2 (str_of_int (Z.of_N n)))) 2)
                         (below 100) = true) by (vm_compute; reflexivity).
  pose proof (@forallb_below _ 100 Hall (Z.to_N x)) as Hok.
  cbv beta in Hok. rewrite Z2N.id in Hok by lia.
  apply Nat.eqb_eq, Hok. lia.
Qed.

End TimeMore.

Section TimeMoreClaims.
Import Script.

(** X8.  Below 100 hours the display formatter writes exactly eight
    characters, two digits each for hours, minutes and seconds; from 100
    hours on the hours are not clamped and the text is longer. *)
Theorem formatTime_shape (s big : Z) :
  (0 <= s < 360000)%Z ->
  (360000 <= big)%Z ->
  (exists hh mm ss,
     formatTime s = hh ++ colon ++ mm ++ colon ++ ss
     /\ digit_string hh /\ length hh = 2 /\ digits_value hh = (s / 3600)%Z
     /\ digit_string mm /\ length mm = 2 /\ digits_value mm = (Z.rem s 3600 / 60)%Z
     /\ digit_string ss /\ length ss = 2 /\ digits_value ss = Z.rem s 60)
  /\ length (formatTime s) = 8
  /\ 9 <= length (formatTime big).
Proof.
  intros Hs Hbig.
  assert (Hs0 : (0 <= s)%Z) by lia.
  destruct (time_fields Hs0) as (Hh & Hm & Hsec & _).
  assert (Hh100 : (0 <= s / 3600 < 100)%Z).
  { split; [lia|]. apply Z.div_lt_upper_bound; lia. }
  destruct (padded_decimal 2 Hh) as [Dh Vh].
  destruct (padded_decimal 2 (proj1 Hm)) as [Dm Vm].
  destruct (padded_decimal 2 (proj1 Hsec)) as [Ds Vs].
  pose proof (two_digits_below_100 Hh100) as Lh.
  pose proof (two_digits_below_60 Hm) as Lm.
  pose proof (two_digits_below_60 Hsec) as Ls.
  split.
  { exists (pad_zeros 2 (str_of_int (s / 3600))),
           (pad_zeros 2 (str_of_int (Z.rem s 3600 / 60))),
           (pad_zeros 2 (str_of_int (Z.rem s 60))).
    refine (conj eq_refl (conj Dh (conj Lh (conj Vh (conj Dm (conj Lm
              (conj Vm (conj Ds (conj Ls Vs))))))))). }
  split.
  { unfold formatTime. rewrite !length_app, Lh, Lm, Ls. reflexivity. }
  assert (Hb0 : (0 <= big)%Z) by lia.
  destruct (time_fields Hb0) as (Bh & Bm & Bsec & _).
  assert (Hbh : (100 <= big / 3600)%Z) by (apply Z.div_le_lower_bound; lia).
  destruct (str_of_int_decimal Bh) as [[_ Dall] Dv].
  assert (Hlen : 3 <= length (str_of_int (big / 3600))).
  { pose proof (digits_value_bound Dall) as Hbound. rewrite Dv in Hbound.
    destruct (str_of_int (big / 3600)) as [|a [|b [|c r]]]; cbn [length] in *;
      lia. }
  unfold formatTime. rewrite !length_app, length_pad_zeros.
  pose proof (two_digits_below_60 Bm). pose proof (two_digits_below_60 Bsec).
  change (length colon) with 1. lia.
Qed.

(** X10.  A text with fewer than three fields between colons parses to 0
    seconds. *)
Theorem parseScormTime_too_few_fields (a b : ustring) :
  Forall (fun c => (c =? 58)%N = false) a ->
  Forall (fun c => (c =? 58)%N = false) b ->
  parseScormTime a = 0%Z /\ parseScormTime (a ++ colon ++ b) = 0%Z.
Proof.
  intros Ha Hb. unfold parseScormTime. split.
  - destruct (is_empty a); [reflexivity|].
    now rewrite (split_colon_last Ha).
  - destruct (is_empty (a ++ colon ++ b)); [reflexivity|].
    change colon with [58%N]. cbn [app].
    now rewrite (split_colon_field _ Ha), (split_colon_last Hb).
Qed.
End TimeMoreClaims.

Lemma formatTime_shape_witness :
  length (Script.formatTime 3661) = 8 /\ 9 <= length (Script.formatTime 360000).
Proof.
  assert (H1 : (0 <= 3661 < 360000)%Z) by lia.
  assert (H2 : (360000 <= 360000)%Z) by lia.
  destruct (@formatTime_shape 3661 360000 H1 H2) as (_ & H8 & H9).
  split; assumption.
Defined.

Lemma parseScormTime_too_few_fields_witness :
  Script.parseScormTime (lit "12" ++ Script.colon ++ lit "30") = 0%Z.
Proof.
  assert (Ha : Forall (fun c => (c =? 58)%N = false) (lit "12")) by (repeat constructor).
  assert (Hb : Forall (fun c => (c =? 58)%N = false) (lit "30")) by (repeat constructor).
  exact (proj2 (@parseScormTime_too_few_fields (lit "12") (lit "30") Ha Hb)).
Defined.

Section RestoreMore.
Import Script.
Context {H : Host}.

Lemma loadTimeFromScorm_phases (st : State) :
  loadTimeFromScorm st
  = if SCORM_isInitialized st then prefer_total_time (adopt_suspend_total st)
    else st.
Proof. reflexivity. Qed.

Lemma adopt_keeps_initialized (st : State) :
  SCORM_isInitialized (adopt_suspend_total st) = SCORM_isInitialized st.
Proof.
  unfold adopt_suspend_total. cbv zeta.
  destruct (negb (is_empty (SCORM_getValue (lit "cmi.suspend_data") st)));
    [|reflexivity].
  destruct (JSON_parse (SCORM_getValue (lit "cmi.suspend_data") st)) as [|[t|]];
    try reflexivity.
  destruct (t =? 0)%Z; reflexivity.
Qed.

Lemma prefer_total_time_value (st : State) :
  SCORM_isInitialized st = true ->
  totalSeconds (prefer_total_time st)
  = if is_empty (LMSGetValue (lit "cmi.core.total_time")) then totalSeconds st
    else Z.max (totalSeconds st)
               (parseScormTime (LMSGetValue (lit "cmi.core.total_time"))).
Proof.
  intros Hi. unfold prefer_total_time, SCORM_getValue. rewrite Hi. cbv zeta.
  destruct (is_empty (LMSGetValue (lit "cmi.core.total_time"))); cbn [negb];
    [reflexivity|].
  destruct (Z.gtb_spec (parseScormTime (LMSGetValue (lit "cmi.core.total_time")))
                       (totalSeconds st));
    rewrite ?totalSeconds_restored; lia.
Qed.

(** X11.  On a freshly loaded, initialized page whose suspend data are
    empty, are no JSON, lack a total or hold the total 0, the restored
    total is what cmi.core.total_time holds, and 0 when that is empty or
    negative; a page whose SCORM session is not initialized restores
    nothing. *)
Theorem restore_without_suspend_total (st offline : State) :
  SCORM_isInitialized st = true ->
  totalSeconds st = 0%Z ->
  (LMSGetValue (lit "cmi.suspend_data") = []
   \/ JSON_parse (LMSGetValue (lit "cmi.suspend_data")) = Throws
   \/ JSON_parse (LMSGetValue (lit "cmi.suspend_data")) = Object None
   \/ JSON_parse (LMSGetValue (lit "cmi.suspend_data")) = Object (Some 0%Z)) ->
  SCORM_isInitialized offline = false ->
  totalSeconds (loadTimeFromScorm st)
  = Z.max 0 (parseScormTime (LMSGetValue (lit "cmi.core.total_time")))
  /\ loadTimeFromScorm offline = offline.
Proof.
  intros Hinit Hzero Hsus Hoff.
  split; [|rewrite loadTimeFromScorm_phases; now rewrite Hoff].
  rewrite loadTimeFromScorm_phases, Hinit.
  rewrite prefer_total_time_value by (now rewrite adopt_keeps_initialized).
  assert (Ha : totalSeconds (adopt_suspend_total st) = 0%Z).
  { unfold adopt_suspend_total, SCORM_getValue. rewrite Hinit. cbv zeta.
    destruct (LMSGetValue (lit "cmi.suspend_data")) as [|c r] eqn:Es;
      [exact Hzero|].
    cbn [is_empty negb].
    destruct Hsus as [Hs|[Hs|[Hs|Hs]]]; [discriminate Hs| | |]; rewrite Hs;
      exact Hzero. }
  rewrite Ha.
  destruct (LMSGetValue (lit "cmi.core.total_time")) as [|c r]; reflexivity.
Qed.

(** X12.  After the restore on an initialized page, whatever the state
    of the page before, the total is not below the seconds of a non-empty
    cmi.core.total_time; this for suspend data that are empty, that do not
    parse, that hold no total or that hold a whole number as total, which
    are the suspend data [Parsed] stands for. *)
Theorem restore_not_below_total_time (st : State) :
  SCORM_isInitialized st = true ->
  LMSGetValue (lit "cmi.core.total_time") <> [] ->
  (parseScormTime (LMSGetValue (lit "cmi.core.total_time"))
   <= totalSeconds (loadTimeFromScorm st))%Z.
Proof.
  intros Hinit Hne.
  rewrite loadTimeFromScorm_phases, Hinit.
  rewrite prefer_total_time_value by (now rewrite adopt_keeps_initialized).
  rewrite (is_empty_false Hne). lia.
Qed.
End RestoreMore.

Lemma restore_without_suspend_total_witness :
  Script.totalSeconds (Script.loadTimeFromScorm (H := lms_garbled) initialized_state)
  = 700%Z.
Proof.
  assert (Hs : Script.LMSGetValue (Host := lms_garbled) (lit "cmi.suspend_data") = []
               \/ Script.JSON_parse (Host := lms_garbled)
                    (Script.LMSGetValue (Host := lms_garbled) (lit "cmi.suspend_data"))
                  = Script.Throws
               \/ Script.JSON_parse (Host := lms_garbled)
                    (Script.LMSGetValue (Host := lms_garbled) (lit "cmi.suspend_data"))
                  = Script.Object None
               \/ Script.JSON_parse (Host := lms_garbled)
                    (Script.LMSGetValue (Host := lms_garbled) (lit "cmi.suspend_data"))
                  = Script.Object (Some 0%Z))
    by (right; left; reflexivity).
  exact (proj1 (@restore_without_suspend_total lms_garbled initialized_state
                  Script.initial_state eq_refl eq_refl Hs eq_refl)).
Defined.

Lemma restore_not_below_total_time_witness :
  (700 <= Script.totalSeconds
            (Script.loadTimeFromScorm (H := lms_500_700) (running_state 5 5)))%Z.
Proof.
  assert (Hne : Script.LMSGetValue (Host := lms_500_700) (lit "cmi.core.total_time") <> [])
    by (vm_compute; discriminate).
  exact (@restore_not_below_total_time lms_500_700 (running_state 5 5) eq_refl Hne).
Defined.


(** * Further properties: timer, unload and completion *)

Section TimerFacts.
Import Script Timer.

Lemma emit_emit (a b : list Effect) (st : State) :
  emit b (emit a st) = emit (a ++ b) st.
Proof. unfold emit. cbn. now rewrite app_assoc. Qed.

Lemma setValue_initialized (element : ustring) (value : JsValue) (st : State) :
  SCORM_isInitialized st = true ->
  SCORM_setValue element value st = emit [LMSSetValue element value; LMSCommit] st.
Proof. intros Hi. unfold SCORM_setValue. now rewrite Hi. Qed.

Lemma commit_initialized (st : State) :
  SCORM_isInitialized st = true ->
  commitTimeToScorm st = emit (commit_calls st) st.
Proof.
  intros Hi. unfold commitTimeToScorm. rewrite Hi.
  rewrite (@setValue_initialized (lit "cmi.core.session_time") _ st Hi).
  rewrite setValue_initialized by (rewrite initialized_emit; exact Hi).
  now rewrite emit_emit.
Qed.

Lemma commit_uninitialized (st : State) :
  SCORM_isInitialized st = false -> commitTimeToScorm st = st.
Proof. intros Hi. unfold commitTimeToScorm. now rewrite Hi. Qed.

Lemma commit_frame (st : State) :
  exists calls, commitTimeToScorm st = emit calls st
                \/ (commitTimeToScorm st = st /\ calls = []).
Proof.
  destruct (SCORM_isInitialized st) eqn:Hi.
  - exists (commit_calls st). left. now apply commit_initialized.
  - exists []. right. split; [now apply commit_uninitialized|reflexivity].
Qed.

Lemma last_suspend_app (d : Z) (a b : list Effect) :
  last_suspend d (a ++ b) = last_suspend (last_suspend d a) b.
Proof.
  revert d. induction a as [|e a IH]; intros d; [reflexivity|].
  destruct e as [| |el [s|z|t]| | | |]; cbn [app last_suspend]; apply IH.
Qed.

Lemma last_suspend_commit (d : Z) (st : State) :
  last_suspend d (commit_calls st) = totalSeconds st.
Proof. reflexivity. Qed.

(** One firing of the timer. *)
Lemma tick_fields (st : State) :
  sessionSeconds (tick st) = (sessionSeconds st + 1)%Z
  /\ totalSeconds (tick st) = (totalSeconds st + 1)%Z
  /\ isTimerRunning (tick st) = isTimerRunning st
  /\ SCORM_isInitialized (tick st) = SCORM_isInitialized st
  /\ sessionTime_text (tick st) = formatTime (sessionSeconds st + 1)
  /\ totalTime_text (tick st) = formatTime (totalSeconds st + 1)
  /\ statusValue (tick st) = statusValue st.
Proof.
  unfold tick. cbv zeta.
  set (x := updateTimerDisplay
              (set_counters (sessionSeconds st + 1) (totalSeconds st + 1) st)).
  destruct (Z.rem (sessionSeconds x) 30 =? 0)%Z.
  - destruct (commit_frame x) as [calls [E|[E _]]]; rewrite E;
      repeat split; reflexivity.
  - repeat split; reflexivity.
Qed.

Lemma tick_effects (st : State) :
  effects (tick st)
  = effects st
    ++ (if SCORM_isInitialized st && (Z.rem (sessionSeconds st + 1) 30 =? 0)%Z
        then commit_calls (tick st) else []).
Proof.
  destruct (tick_fields st) as (Hs & Ht & _).
  unfold commit_calls. rewrite Hs, Ht.
  unfold tick. cbv zeta.
  set (x := updateTimerDisplay
              (set_counters (sessionSeconds st + 1) (totalSeconds st + 1) st)).
  change (sessionSeconds x) with (sessionSeconds st + 1)%Z.
  destruct (Z.rem (sessionSeconds st + 1) 30 =? 0)%Z.
  - destruct (SCORM_isInitialized st) eqn:Hi; cbn [andb].
    + rewrite commit_initialized by exact Hi. reflexivity.
    + rewrite commit_uninitialized by exact Hi.
      change (effects x) with (effects st). now rewrite app_nil_r.
  - rewrite andb_false_r. change (effects x) with (effects st).
    now rewrite app_nil_r.
Qed.
End TimerFacts.

Section TimerClaims.
Import Script Timer.

Lemma ticks_fields (n : nat) (st : State) :
  sessionSeconds (ticks n st) = (sessionSeconds st + Z.of_nat n)%Z
  /\ totalSeconds (ticks n st) = (totalSeconds st + Z.of_nat n)%Z
  /\ isTimerRunning (ticks n st) = isTimerRunning st
  /\ SCORM_isInitialized (ticks n st) = SCORM_isInitialized st
  /\ (0 < n ->
      sessionTime_text (ticks n st) = formatTime (sessionSeconds st + Z.of_nat n)
      /\ totalTime_text (ticks n st) = formatTime (totalSeconds st + Z.of_nat n)).
Proof.
  revert st. induction n as [|n IH]; intros st.
  - cbn [ticks]. change (Z.of_nat 0) with 0%Z. rewrite !Z.add_0_r.
    repeat split; try reflexivity; lia.
  - cbn [ticks].
    destruct (IH (tick st)) as (Hs & Ht & Hr & Hi & Htxt).
    destruct (tick_fields st) as (Ts & Tt & Tr & Ti & Tst & Ttt & _).
    rewrite Hs, Ht, Hr, Hi, Ts, Tt, Tr, Ti.
    rewrite Nat2Z.inj_succ.
    split; [lia|]. split; [lia|]. split; [reflexivity|]. split; [reflexivity|].
    intros _. destruct n as [|n'].
    + cbn [ticks]. rewrite Tst, Ttt. split; f_equal; lia.
    + destruct Htxt as [H1 H2]; [lia|]. rewrite H1, H2, Ts, Tt.
      split; f_equal; lia.
Qed.

(** X13.  [n] firings of the timer add [n] seconds to the session and to
    the total alike, leave the running flag alone, and after at least one
    the two displayed times are those of the counters. *)
Theorem ticks_count (n : nat) (st : State) :
  sessionSeconds (ticks n st) = (sessionSeconds st + Z.of_nat n)%Z
  /\ totalSeconds (ticks n st) = (totalSeconds st + Z.of_nat n)%Z
  /\ isTimerRunning (ticks n st) = isTimerRunning st
  /\ SCORM_isInitialized (ticks n st) = SCORM_isInitialized st
  /\ (0 < n ->
      sessionTime_text (ticks n st) = formatTime (sessionSeconds st + Z.of_nat n)
      /\ totalTime_text (ticks n st) = formatTime (totalSeconds st + Z.of_nat n)).
Proof.
  destruct (ticks_fields n st) as (Hs & Ht & Hr & Hi & Htxt).
  split; [exact Hs|]. split; [exact Ht|]. split; [exact Hr|].
  split; [exact Hi|]. intros Hn. now apply Htxt.
Qed.

Lemma ticks_invariant (n : nat) :
  forall (st : State) (stored : Z),
    SCORM_isInitialized st = true ->
    (0 <= sessionSeconds st)%Z ->
    (totalSeconds st - last_suspend stored (effects st)
     = sessionSeconds st mod 30)%Z ->
    (totalSeconds (ticks n st) - last_suspend stored (effects (ticks n st))
     = (sessionSeconds st + Z.of_nat n) mod 30)%Z.
Proof.
  induction n as [|n IH]; intros st stored Hi Hs Hinv.
  - cbn [ticks]. change (Z.of_nat 0) with 0%Z. now rewrite Z.add_0_r.
  - cbn [ticks].
    destruct (tick_fields st) as (Ts & Tt & _ & Ti & _).
    rewrite (IH (tick st) stored).
    + rewrite Ts, Nat2Z.inj_succ. f_equal. lia.
    + now rewrite Ti.
    + rewrite Ts. lia.
    + rewrite tick_effects, Hi, Ts, Tt. cbn [andb].
      destruct (Z.eqb_spec (Z.rem (sessionSeconds st + 1) 30) 0) as [E|E];
        rewrite Z.rem_mod_nonneg in E by lia.
      * rewrite last_suspend_app, last_suspend_commit, Tt, E. lia.
      * rewrite app_nil_r.
        pose proof (Z.mod_pos_bound (sessionSeconds st) 30).
        pose proof (Z.mod_pos_bound (sessionSeconds st + 1) 30).
        pose proof (Z.div_mod (sessionSeconds st) 30).
        pose proof (Z.div_mod (sessionSeconds st + 1) 30).
        lia.
Qed.

Lemma ticks_add (a b : nat) (st : State) :
  ticks (a + b) st = ticks b (ticks a st).
Proof.
  revert st. induction a as [|a IH]; intros st; [reflexivity|].
  cbn [Nat.add ticks]. apply IH.
Qed.

(** Between two multiples of 30 seconds of session the timer writes
    nothing. *)
Lemma ticks_no_commit (n : nat) :
  forall st : State,
    (0 <= sessionSeconds st)%Z ->
    (sessionSeconds st mod 30 + Z.of_nat n < 30)%Z ->
    effects (ticks n st) = effects st.
Proof.
  induction n as [|n IH]; intros st Hs Hn; [reflexivity|].
  cbn [ticks].
  destruct (tick_fields st) as (Ts & _).
  pose proof (Z.mod_pos_bound (sessionSeconds st) 30) as Hm.
  pose proof (Z.div_mod (sessionSeconds st) 30) as Hd.
  pose proof (Z.mod_pos_bound (sessionSeconds st + 1) 30) as Hm1.
  pose proof (Z.div_mod (sessionSeconds st + 1) 30) as Hd1.
  rewrite IH.
  - rewrite tick_effects.
    destruct (Z.eqb_spec (Z.rem (sessionSeconds st + 1) 30) 0) as [E|E].
    + rewrite Z.rem_mod_nonneg in E by lia. lia.
    + rewrite andb_false_r. apply app_nil_r.
  - rewrite Ts. lia.
  - rewrite Ts. lia.
Qed.

(** X14.  In a session on an initialized page the timer writes nothing
    during its first 29 firings, so what the LMS holds as suspend data
    stands as it was, however far from the total of the page; from the
    30th firing on the total of the page is ahead of the total last
    written as suspend data by [n mod 30] seconds, 29 at most, whatever
    the LMS held before. *)
Theorem ticks_uncommitted_below_30 (n : nat) (st : State) (stored : Z) :
  SCORM_isInitialized st = true ->
  sessionSeconds st = 0%Z ->
  (n < 30 ->
   effects (ticks n st) = effects st
   /\ totalSeconds (ticks n st) = (totalSeconds st + Z.of_nat n)%Z)
  /\ (30 <= n ->
      (totalSeconds (ticks n st) - last_suspend stored (effects (ticks n st))
       = Z.of_nat n mod 30)%Z
      /\ (0 <= totalSeconds (ticks n st)
               - last_suspend stored (effects (ticks n st)) <= 29)%Z).
Proof.
  intros Hi Hs. split.
  - intros Hn. split.
    + apply ticks_no_commit; rewrite Hs; [lia|].
      change (0 mod 30)%Z with 0%Z. lia.
    + now destruct (ticks_fields n st) as (_ & Ht & _).
  - intros Hn.
    assert (Heq : (totalSeconds (ticks n st)
                   - last_suspend stored (effects (ticks n st))
                   = Z.of_nat n mod 30)%Z).
    { replace n with (29 + (1 + (n - 30))) by lia.
      rewrite ticks_add, ticks_add.
      set (x := ticks 29 st).
      destruct (ticks_fields 29 st) as (Xs & Xt & _ & Xi & _).
      fold x in Xs, Xt, Xi. rewrite Hs in Xs. rewrite Hi in Xi.
      change (ticks 1 x) with (tick x).
      destruct (tick_fields x) as (Ts & Tt & _ & Ti & _).
      rewrite (@ticks_invariant (n - 30) (tick x) stored).
      - rewrite Ts, Xs. f_equal. lia.
      - now rewrite Ti.
      - rewrite Ts, Xs. lia.
      - rewrite tick_effects, Xi, Ts, Tt, Xs. cbn [andb].
        change (Z.rem (0 + Z.of_nat 29 + 1) 30 =? 0)%Z with true. cbv iota.
        rewrite last_suspend_app, last_suspend_commit, Tt.
        change ((0 + Z.of_nat 29 + 1) mod 30)%Z with 0%Z. lia. }
    split; [exact Heq|]. rewrite Heq.
    pose proof (Z.mod_pos_bound (Z.of_nat n) 30). lia.
Qed.

Lemma pauseTimer_facts (st : State) :
  isTimerRunning (pauseTimer st) = false
  /\ sessionSeconds (pauseTimer st) = sessionSeconds st
  /\ totalSeconds (pauseTimer st) = totalSeconds st
  /\ pauseTimer (pauseTimer st) = pauseTimer st
  /\ (isTimerRunning st = true -> SCORM_isInitialized st = true ->
      effects (pauseTimer st) = effects st ++ clearInterval :: commit_calls st).
Proof.
  assert (Hpaused : forall x, isTimerRunning x = false -> pauseTimer x = x).
  { intros x Hx. unfold pauseTimer. now rewrite Hx. }
  destruct (isTimerRunning st) eqn:Hr.
  - assert (E : pauseTimer st = commitTimeToScorm (timer_stopped st))
      by (unfold pauseTimer; now rewrite Hr).
    destruct (SCORM_isInitialized st) eqn:Hi.
    + rewrite commit_initialized in E by exact Hi.
      assert (Hoff : isTimerRunning (pauseTimer st) = false) by now rewrite E.
      split; [exact Hoff|]. split; [now rewrite E|]. split; [now rewrite E|].
      split; [now apply Hpaused|]. intros _ _.
      rewrite E, effects_emit.
      change (effects (timer_stopped st)) with (effects st ++ [clearInterval]).
      rewrite <- app_assoc. reflexivity.
    + rewrite commit_uninitialized in E by exact Hi.
      assert (Hoff : isTimerRunning (pauseTimer st) = false) by now rewrite E.
      split; [exact Hoff|]. split; [now rewrite E|]. split; [now rewrite E|].
      split; [now apply Hpaused|]. discriminate.
  - rewrite !(Hpaused st Hr).
    split; [exact Hr|]. split; [reflexivity|]. split; [reflexivity|].
    split; [reflexivity|]. intros Habs. discriminate Habs.
Qed.

(** X15.  Pausing stops the timer and keeps the counters; pausing a paused
    timer does nothing; pausing a running timer on an initialized page
    clears the interval and hands the session time and the total to the
    LMS. *)
Theorem pauseTimer_stops (st : State) :
  isTimerRunning (pauseTimer st) = false
  /\ sessionSeconds (pauseTimer st) = sessionSeconds st
  /\ totalSeconds (pauseTimer st) = totalSeconds st
  /\ pauseTimer (pauseTimer st) = pauseTimer st
  /\ (isTimerRunning st = true -> SCORM_isInitialized st = true ->
      effects (pauseTimer st) = effects st ++ clearInterval :: commit_calls st).
Proof.
  destruct (pauseTimer_facts st) as (Hoff & Hs & Ht & Hidem & Heff).
  split; [exact Hoff|]. split; [exact Hs|]. split; [exact Ht|].
  split; [exact Hidem|]. intros Hr Hi. now apply Heff.
Qed.

End TimerClaims.

Lemma ticks_uncommitted_witness :
  (0 <= Script.totalSeconds (Timer.ticks 45 (running_state 0 700))
        - Timer.last_suspend 500 (Script.effects (Timer.ticks 45 (running_state 0 700)))
   <= 29)%Z.
Proof.
  assert (Hn : 30 <= 45) by lia.
  exact (proj2 (proj2 (@ticks_uncommitted_below_30 45 (running_state 0 700) 500
                         eq_refl eq_refl) Hn)).
Defined.

Section CompletionFacts.
Import Script Timer.

Lemma pause_paused (x : State) : isTimerRunning x = false -> pauseTimer x = x.
Proof. intros Hx. unfold pauseTimer. now rewrite Hx. Qed.

Lemma pause_running (x : State) :
  isTimerRunning x = true -> pauseTimer x = commitTimeToScorm (timer_stopped x).
Proof. intros Hx. unfold pauseTimer. now rewrite Hx. Qed.

Lemma SCORM_complete_initialized (x : State) :
  SCORM_isInitialized x = true -> SCORM_complete x = emit complete_calls x.
Proof.
  intros Hi. unfold SCORM_complete, SCORM_setScore, SCORM_setStatus.
  rewrite Hi. rewrite initialized_emit, Hi. now rewrite !emit_emit.
Qed.

Lemma SCORM_complete_offline (x : State) :
  SCORM_isInitialized x = false ->
  SCORM_complete x
  = emit [console_log (lit "SCORM: Course marked as completed")] x.
Proof.
  intros Hi. unfold SCORM_complete, SCORM_setScore, SCORM_setStatus.
  now rewrite Hi, Hi.
Qed.

(** What a confirmed completion adds to the effects. *)
Lemma confirm_and_complete_effects (st : State) :
  effects (confirm_and_complete true st)
  = effects st
    ++ [confirm (confirm_prompt (totalSeconds st))]
    ++ (if isTimerRunning st
        then clearInterval :: (if SCORM_isInitialized st then commit_calls st else [])
        else [])
    ++ (if SCORM_isInitialized st then commit_calls st ++ complete_calls
        else [console_log (lit "SCORM: Course marked as completed")])
    ++ [alert (completed_alert (totalSeconds st))].
Proof.
  unfold confirm_and_complete.
  set (s1 := emit [confirm (confirm_prompt (totalSeconds st))] st).
  assert (E1 : effects s1 = effects st ++ [confirm (confirm_prompt (totalSeconds st))])
    by reflexivity.
  assert (I1 : SCORM_isInitialized s1 = SCORM_isInitialized st) by reflexivity.
  assert (R1 : isTimerRunning s1 = isTimerRunning st) by reflexivity.
  assert (C1 : forall e x, commit_calls (emit e x) = commit_calls x) by reflexivity.
  rewrite effects_emit.
  change (effects (updateStatus (lit "Completed") true ?x)) with (effects x).
  change (totalSeconds (updateStatus (lit "Completed") true
            (SCORM_complete (commitTimeToScorm (pauseTimer s1)))))
    with (totalSeconds (SCORM_complete (commitTimeToScorm (pauseTimer s1)))).
  destruct (SCORM_isInitialized st) eqn:Hi.
  - assert (Ip : SCORM_isInitialized (pauseTimer s1) = true)
      by (now rewrite initialized_pause, I1).
    assert (Ic : SCORM_isInitialized (commitTimeToScorm (pauseTimer s1)) = true)
      by (now rewrite initialized_commit).
    rewrite (SCORM_complete_initialized _ Ic).
    rewrite (commit_initialized _ Ip).
    rewrite !effects_emit.
    destruct (pauseTimer_facts s1) as (_ & Ps & Pt & _ & Pe).
    assert (Hc : commit_calls (pauseTimer s1) = commit_calls st)
      by (unfold commit_calls; rewrite Ps, Pt; reflexivity).
    rewrite Hc.
    change (totalSeconds (emit complete_calls
              (emit (commit_calls st) (pauseTimer s1))))
      with (totalSeconds (pauseTimer s1)).
    rewrite Pt. change (totalSeconds s1) with (totalSeconds st).
    destruct (isTimerRunning st) eqn:Hr.
    + rewrite Pe by assumption.
      rewrite E1. change (commit_calls s1) with (commit_calls st).
      rewrite <- !app_assoc. reflexivity.
    + rewrite pause_paused by (now rewrite R1).
      rewrite E1. rewrite <- !app_assoc. reflexivity.
  - assert (Ip : SCORM_isInitialized (pauseTimer s1) = false)
      by (now rewrite initialized_pause, I1).
    rewrite (commit_uninitialized _ Ip).
    rewrite (SCORM_complete_offline _ Ip).
    rewrite effects_emit.
    change (totalSeconds (emit [console_log (lit "SCORM: Course marked as completed")]
              (pauseTimer s1)))
      with (totalSeconds (pauseTimer s1)).
    destruct (pauseTimer_facts s1) as (_ & _ & Pt & _).
    rewrite Pt. change (totalSeconds s1) with (totalSeconds st).
    destruct (isTimerRunning st) eqn:Hr.
    + rewrite pause_running by (now rewrite R1).
      rewrite commit_uninitialized by exact I1.
      change (effects (timer_stopped s1)) with (effects s1 ++ [clearInterval]).
      rewrite E1. rewrite <- !app_assoc. reflexivity.
    + rewrite pause_paused by (now rewrite R1).
      rewrite E1. rewrite <- !app_assoc. reflexivity.
Qed.
End CompletionFacts.

Section CompletionClaims.
Import Script Timer.

Lemma commit_counters (x : State) :
  sessionSeconds (commitTimeToScorm x) = sessionSeconds x
  /\ totalSeconds (commitTimeToScorm x) = totalSeconds x.
Proof.
  destruct (SCORM_isInitialized x) eqn:Hi.
  - rewrite commit_initialized by exact Hi. split; reflexivity.
  - rewrite commit_uninitialized by exact Hi. split; reflexivity.
Qed.

Lemma complete_counters (x : State) :
  sessionSeconds (SCORM_complete x) = sessionSeconds x
  /\ totalSeconds (SCORM_complete x) = totalSeconds x.
Proof.
  destruct (SCORM_isInitialized x) eqn:Hi.
  - rewrite SCORM_complete_initialized by exact Hi. split; reflexivity.
  - rewrite SCORM_complete_offline by exact Hi. split; reflexivity.
Qed.

Lemma confirm_and_complete_counters (answer : bool) (st : State) :
  sessionSeconds (confirm_and_complete answer st) = sessionSeconds st
  /\ totalSeconds (confirm_and_complete answer st) = totalSeconds st.
Proof.
  unfold confirm_and_complete.
  set (s1 := emit [confirm (confirm_prompt (totalSeconds st))] st).
  destruct answer; [|split; reflexivity].
  set (x := SCORM_complete (commitTimeToScorm (pauseTimer s1))).
  change (sessionSeconds x = sessionSeconds st /\ totalSeconds x = totalSeconds st).
  unfold x.
  destruct (complete_counters (commitTimeToScorm (pauseTimer s1))) as [-> ->].
  destruct (commit_counters (pauseTimer s1)) as [-> ->].
  destruct (pauseTimer_facts s1) as (_ & -> & -> & _).
  split; reflexivity.
Qed.

(** X17.  Marking complete never changes the session or the total time,
    and it sets the status to Completed exactly when the gate, if any,
    lets through and the learner confirms; otherwise the status stays. *)
Theorem markComplete_status (gate : option Gate) (answer : bool) (st : State) :
  sessionSeconds (markComplete gate answer st) = sessionSeconds st
  /\ totalSeconds (markComplete gate answer st) = totalSeconds st
  /\ statusValue (markComplete gate answer st)
     = (if match gate with
           | Some g => negb (totalSeconds st <? MIN_TIME_REQUIRED g)%Z
           | None => true
           end && answer
        then lit "Completed" else statusValue st).
Proof.
  assert (Hstatus : statusValue (confirm_and_complete answer st)
                    = if answer then lit "Completed" else statusValue st).
  { destruct answer; [apply status_after_completion|reflexivity]. }
  destruct (confirm_and_complete_counters answer st) as [Hs Ht].
  unfold markComplete. destruct gate as [g|].
  - destruct (totalSeconds st <? MIN_TIME_REQUIRED g)%Z; cbn [negb andb].
    + repeat split; reflexivity.
    + rewrite Hs, Ht, Hstatus. repeat split; reflexivity.
  - cbn [andb]. rewrite Hs, Ht, Hstatus. repeat split; reflexivity.
Qed.

(** X18.  On an initialized page a confirmed completion asks, stops a
    running timer, saves the session time and the total, then reports the
    status "completed" and the score 100 within 0 and 100, then tells the
    learner: in this order and nothing else. *)
Theorem completion_reports_in_order (gate : option Gate) (st : State) :
  SCORM_isInitialized st = true ->
  match gate with
  | Some g => (MIN_TIME_REQUIRED g <= totalSeconds st)%Z
  | None => True
  end ->
  effects (markComplete gate true st)
  = effects st
    ++ [confirm (confirm_prompt (totalSeconds st))]
    ++ (if isTimerRunning st then clearInterval :: commit_calls st else [])
    ++ commit_calls st ++ complete_calls
    ++ [alert (completed_alert (totalSeconds st))].
Proof.
  intros Hi Hpass.
  assert (E : markComplete gate true st = confirm_and_complete true st).
  { unfold markComplete. destruct gate as [g|]; [|reflexivity].
    destruct (Z.ltb_spec (totalSeconds st) (MIN_TIME_REQUIRED g)); [lia|reflexivity]. }
  rewrite E, confirm_and_complete_effects, Hi.
  now rewrite <- !app_assoc.
Qed.

Lemma ticks_offline (n : nat) :
  forall st, SCORM_isInitialized st = false -> effects (ticks n st) = effects st.
Proof.
  induction n as [|n IH]; intros st Hi; [reflexivity|].
  cbn [ticks]. destruct (tick_fields st) as (_ & _ & _ & Ti & _).
  rewrite IH by (now rewrite Ti).
  rewrite tick_effects, Hi. cbn [andb]. now rewrite app_nil_r.
Qed.

(** X19.  On a page whose SCORM session is not initialized nothing is ever
    handed to the LMS: not by the timer, not on unload, not on marking
    complete; reading a value gives the empty text; and still the timer
    counts and a confirmed completion shows Completed. *)
Theorem offline_page_makes_no_lms_call {H : Host} (n : nat) (gate : option Gate)
        (answer : bool) (element : ustring) (st : State) :
  SCORM_isInitialized st = false ->
  effects (ticks n st) = effects st
  /\ totalSeconds (ticks n st) = (totalSeconds st + Z.of_nat n)%Z
  /\ filter is_lms_call (effects (on_beforeunload st))
     = filter is_lms_call (effects st)
  /\ filter is_lms_call (effects (markComplete gate answer st))
     = filter is_lms_call (effects st)
  /\ SCORM_getValue element st = []
  /\ loadTimeFromScorm st = st
  /\ statusValue (markComplete None true st) = lit "Completed".
Proof.
  intros Hi.
  split; [now apply ticks_offline|].
  split; [apply ticks_fields|].
  split.
  { unfold on_beforeunload.
    rewrite commit_uninitialized by (now rewrite initialized_pause).
    destruct (isTimerRunning st) eqn:Hr.
    - rewrite pause_running by exact Hr.
      rewrite commit_uninitialized by exact Hi.
      change (effects (timer_stopped st)) with (effects st ++ [clearInterval]).
      rewrite filter_app. cbn [filter is_lms_call]. now rewrite app_nil_r.
    - now rewrite pause_paused by exact Hr. }
  split.
  { assert (Hc : filter is_lms_call (effects (confirm_and_complete answer st))
                 = filter is_lms_call (effects st)).
    { destruct answer.
      - rewrite confirm_and_complete_effects, Hi.
        rewrite !filter_app. cbn [filter is_lms_call].
        destruct (isTimerRunning st); cbn [filter is_lms_call app];
          now rewrite app_nil_r.
      - unfold confirm_and_complete. rewrite effects_emit, filter_app.
        cbn [filter is_lms_call]. now rewrite app_nil_r. }
    unfold markComplete. destruct gate as [g|]; [|exact Hc].
    destruct (totalSeconds st <? MIN_TIME_REQUIRED g)%Z; [|exact Hc].
    rewrite effects_emit, filter_app. cbn [filter is_lms_call].
    now rewrite app_nil_r. }
  split; [unfold SCORM_getValue; now rewrite Hi|].
  split; [unfold loadTimeFromScorm; now rewrite Hi|].
  apply status_after_completion.
Qed.
End CompletionClaims.

Lemma completion_reports_in_order_witness :
  Script.effects
    (Script.markComplete (compiled_gate true 30) true (running_state 1800 1800))
  = [Script.confirm (Script.confirm_prompt 1800); Script.clearInterval]
    ++ Timer.commit_calls (running_state 1800 1800)
    ++ Timer.commit_calls (running_state 1800 1800)
    ++ Timer.complete_calls
    ++ [Script.alert (Script.completed_alert 1800)].
Proof.
  assert (Hg : match compiled_gate true 30 with
               | Some g => (MIN_TIME_REQUIRED g
                            <= Script.totalSeconds (running_state 1800 1800))%Z
               | None => True
               end) by (simpl; lia).
  exact (@completion_reports_in_order (compiled_gate true 30)
           (running_state 1800 1800) eq_refl Hg).
Defined.

Lemma offline_page_witness :
  Script.effects (Timer.ticks 60 (uninitialized_running 0 0)) = []
  /\ Script.totalSeconds (Timer.ticks 60 (uninitialized_running 0 0)) = 60%Z.
Proof.
  destruct (@offline_page_makes_no_lms_call lms_500_700 60 None true
              (lit "cmi.core.total_time") (uninitialized_running 0 0) eq_refl)
    as (He & Ht & _).
  split; [exact He|exact Ht].
Defined.


(** * Further properties: the API wrapper *)

Section ShimFacts.
Import Script Timer Shim.

Lemma findAPI_from_own (left : nat) (win : Window) (api : Api) :
  API_of win = Some api -> findAPI_from left win = Some api.
Proof.
  destruct win as [[a|] par opn]; cbn [API_of]; intros E; [|discriminate].
  destruct left; cbn [findAPI_from]; exact E.
Qed.

Lemma findAPI_from_up (left : nat) (win p : Window) :
  API_of win = None -> parent_of win = Some p ->
  findAPI_from (S left) win = findAPI_from left p.
Proof.
  destruct win as [[a|] [q|] opn]; cbn [API_of parent_of]; intros Ha Hp;
    try discriminate.
  injection Hp as ->. reflexivity.
Qed.

Lemma findAPI_from_ancestor (k : nat) :
  forall (left : nat) (win w : Window) (api : Api),
    k <= left ->
    ancestor k win = Some w ->
    API_of w = Some api ->
    (forall j, j < k -> exists v, ancestor j win = Some v /\ API_of v = None) ->
    findAPI_from left win = Some api.
Proof.
  induction k as [|k IH]; intros left win w api Hk Hw Ha Hnone.
  - cbn [ancestor] in Hw. injection Hw as ->. now apply findAPI_from_own.
  - destruct left as [|left]; [lia|].
    cbn [ancestor] in Hw.
    destruct (parent_of win) as [p|] eqn:Hp; [|discriminate].
    destruct (Hnone 0) as (v & Hv & Hva); [lia|].
    cbn [ancestor] in Hv. injection Hv as <-.
    rewrite (@findAPI_from_up left win p Hva Hp).
    apply (IH left p w api); [lia|exact Hw|exact Ha|].
    intros j Hj. destruct (Hnone (S j)) as (u & Hu & Hua); [lia|].
    cbn [ancestor] in Hu. rewrite Hp in Hu. now exists u.
Qed.

Lemma findAPI_from_exhausted (left : nat) :
  forall win : Window,
    (forall j, j <= left -> exists v, ancestor j win = Some v /\ API_of v = None) ->
    (forall w, ancestor left win = Some w -> opener_of w = None) ->
    findAPI_from left win = None.
Proof.
  induction left as [|left IH]; intros win Hnone Hop.
  - destruct (Hnone 0) as (v & Hv & Hva); [lia|].
    cbn [ancestor] in Hv. injection Hv as <-.
    specialize (Hop win eq_refl).
    destruct win as [[a|] par opn]; cbn [API_of opener_of] in *; [discriminate|].
    subst opn. cbn [findAPI_from]. destruct par; reflexivity.
  - destruct (Hnone 0) as (v & Hv & Hva); [lia|].
    cbn [ancestor] in Hv. injection Hv as <-.
    destruct (Hnone 1) as (p & Hp & _); [lia|].
    cbn [ancestor] in Hp.
    destruct (parent_of win) as [q|] eqn:Hq; [|discriminate].
    injection Hp as ->.
    rewrite (@findAPI_from_up left win p Hva Hq).
    apply IH.
    + intros j Hj. destruct (Hnone (S j)) as (u & Hu & Hua); [lia|].
      cbn [ancestor] in Hu. rewrite Hq in Hu. now exists u.
    + intros w Hw. apply Hop. cbn [ancestor]. now rewrite Hq.
Qed.

Lemma ancestor_nested (depth j : nat) (top : Window) :
  j <= depth -> ancestor j (nested depth top) = Some (nested (depth - j) top).
Proof.
  revert j. induction depth as [|d IH]; intros j Hj.
  - assert (j = 0) by lia. subst j. reflexivity.
  - destruct j as [|j]; [reflexivity|].
    cbn [ancestor nested parent_of]. apply IH. lia.
Qed.

Lemma findAPI_from_sound :
  forall (win : Window) (left : nat) (api : Api),
    findAPI_from left win = Some api ->
    exists w, reaches win w /\ API_of w = Some api.
Proof.
  fix IH 1. intros [[a|] par opn] left api Hfind.
  - destruct left; cbn [findAPI_from] in Hfind; injection Hfind as ->;
      (eexists; split; [apply reaches_self|reflexivity]).
  - assert (Hopener :
      match opn with
      | Some o =>
          match API_of o with
          | Some api0 => Some api0
          | None => findAPI_from maxAttempts o
          end
      | None => None
      end = Some api ->
      exists w, reaches (Win None par opn) w /\ API_of w = Some api).
    { destruct opn as [o|]; [|discriminate].
      destruct (API_of o) as [b|] eqn:Hb.
      - intros E. injection E as ->. exists o. split; [|exact Hb].
        eapply reaches_opener; [reflexivity|apply reaches_self].
      - intros E. destruct (IH o maxAttempts api E) as (w & Hr & Hw).
        exists w. split; [|exact Hw].
        eapply reaches_opener; [reflexivity|exact Hr]. }
    destruct par as [p|].
    + destruct left as [|k].
      * cbn [findAPI_from] in Hfind. now apply Hopener.
      * cbn [findAPI_from] in Hfind.
        destruct (IH p k api Hfind) as (w & Hr & Hw).
        exists w. split; [|exact Hw].
        eapply reaches_parent; [reflexivity|exact Hr].
    + destruct left; cbn [findAPI_from] in Hfind; now apply Hopener.
Qed.
End ShimFacts.

Section ShimClaims.
Import Script Timer Shim.

(** X20.  The search goes up the parents and returns the API of the
    nearest window that has one, when that window is at most 500 parents
    up. *)
Theorem findAPI_nearest_ancestor (k : nat) (win w : Window) (api : Api) :
  k <= 500 ->
  ancestor k win = Some w ->
  API_of w = Some api ->
  (forall j, j < k -> exists v, ancestor j win = Some v /\ API_of v = None) ->
  findAPI win = Some api.
Proof.
  intros Hk Hw Ha Hnone. unfold findAPI.
  apply (@findAPI_from_ancestor k maxAttempts win w api); assumption.
Qed.

Lemma reaches_nested (depth : nat) (top : Window) :
  reaches (nested depth top) top.
Proof.
  induction depth as [|d IH]; [apply reaches_self|].
  eapply reaches_parent; [reflexivity|exact IH].
Qed.

(** X21.  A page more than 500 frames below a window does not find the
    API of that window, although the parents lead to it: the loop stops
    after 500 hops. *)
Theorem findAPI_hop_limit (depth : nat) (top : Window) :
  500 < depth ->
  findAPI (nested depth top) = None /\ reaches (nested depth top) top.
Proof.
  intros Hd. split; [|apply reaches_nested].
  unfold findAPI. apply findAPI_from_exhausted.
  - intros j Hj. unfold maxAttempts in Hj.
    exists (nested (depth - j) top).
    split; [apply ancestor_nested; lia|].
    destruct (depth - j) as [|m] eqn:E; [lia|reflexivity].
  - intros w Hw. unfold maxAttempts in Hw.
    rewrite ancestor_nested in Hw by lia. injection Hw as <-.
    destruct (depth - 500) as [|m] eqn:E; [lia|reflexivity].
Qed.

(** X22.  The API the search returns is the API of a window that parent and
    opener links lead to from the page; when no such window has one, the
    search returns nothing. *)
Theorem findAPI_sound (win : Window) :
  (forall api, findAPI win = Some api ->
               exists w, reaches win w /\ API_of w = Some api)
  /\ ((forall w, reaches win w -> API_of w = None) -> findAPI win = None).
Proof.
  split.
  - intros api Hf. now apply (@findAPI_from_sound win maxAttempts api).
  - intros Hnone. destruct (findAPI win) as [api|] eqn:Hf; [|reflexivity].
    destruct (@findAPI_from_sound win maxAttempts api Hf) as (w & Hr & Hw).
    rewrite (Hnone w Hr) in Hw. discriminate Hw.
Qed.

(** X23.  [SCORM.init] succeeds exactly when the search finds an API that
    answers "true" or [true] to [LMSInitialize]; it then sets the flag and
    writes and commits the lesson status "incomplete"; otherwise it leaves
    the flag as it was and only logs. *)
Theorem init_outcome (window : Window) (st : State) :
  (fst (init window st) = true
   <-> exists api, findAPI window = Some api
                   /\ LMSInitialize_answer api <> AnswersOther)
  /\ (fst (init window st) = true ->
      SCORM_isInitialized (snd (init window st)) = true
      /\ effects (snd (init window st))
         = effects st
           ++ [LMSSetValue (lit "cmi.core.lesson_status") (JsString (lit "incomplete"));
               LMSCommit;
               console_log (lit "SCORM: Successfully initialized")])
  /\ (fst (init window st) = false ->
      SCORM_isInitialized (snd (init window st)) = SCORM_isInitialized st
      /\ effects (snd (init window st)) = effects st ++ [console_log init_failed]).
Proof.
  unfold init.
  destruct (findAPI window) as [api|].
  - destruct (LMSInitialize_answer api) eqn:Ha; cbn [fst snd].
    + split; [|split].
      * split; [|reflexivity]. intros _. exists api. split; [reflexivity|].
        rewrite Ha. discriminate.
      * intros _. split; [reflexivity|].
        rewrite effects_emit. unfold SCORM_setStatus.
        change (SCORM_isInitialized (set_initialized true st)) with true.
        cbv iota. rewrite effects_emit.
        change (effects (set_initialized true st)) with (effects st).
        now rewrite <- app_assoc.
      * discriminate.
    + split; [|split].
      * split; [|reflexivity]. intros _. exists api. split; [reflexivity|].
        rewrite Ha. discriminate.
      * intros _. split; [reflexivity|].
        rewrite effects_emit. unfold SCORM_setStatus.
        change (SCORM_isInitialized (set_initialized true st)) with true.
        cbv iota. rewrite effects_emit.
        change (effects (set_initialized true st)) with (effects st).
        now rewrite <- app_assoc.
      * discriminate.
    + split; [|split].
      * split; [discriminate|]. intros (api' & E & Hne).
        injection E as <-. congruence.
      * discriminate.
      * intros _. split; reflexivity.
  - cbn [fst snd]. split; [|split].
    + split; [discriminate|]. intros (api' & E & _). discriminate E.
    + discriminate.
    + intros _. split; reflexivity.
Qed.

(** X24.  When no window that the page can reach exposes an API, [init]
    fails on the loaded page, which stays without session: marking complete
    then completes on the page and hands nothing to the LMS. *)
Theorem no_api_no_session (window : Window) (gate : option Gate) (answer : bool) :
  (forall w, reaches window w -> API_of w = None) ->
  init window initial_state
  = (false, emit [console_log init_failed] initial_state)
  /\ SCORM_isInitialized (snd (init window initial_state)) = false
  /\ filter is_lms_call
       (effects (markComplete gate answer (snd (init window initial_state))))
     = []
  /\ statusValue (markComplete None true (snd (init window initial_state)))
     = lit "Completed".
Proof.
  intros Hnone.
  assert (Hf : findAPI window = None).
  { destruct (findAPI window) as [api|] eqn:Hf; [|reflexivity].
    destruct (@findAPI_from_sound window maxAttempts api Hf) as (w & Hr & Hw).
    rewrite (Hnone w Hr) in Hw. discriminate Hw. }
  unfold init. rewrite Hf. cbn [snd].
  split; [reflexivity|]. split; [reflexivity|].
  split; [|apply status_after_completion].
  set (st := emit [console_log init_failed] initial_state).
  assert (Hi : SCORM_isInitialized st = false) by reflexivity.
  assert (Hc : filter is_lms_call (effects (confirm_and_complete answer st)) = []).
  { destruct answer.
    - rewrite confirm_and_complete_effects, Hi. reflexivity.
    - reflexivity. }
  unfold markComplete. destruct gate as [g|]; [|exact Hc].
  destruct (totalSeconds st <? MIN_TIME_REQUIRED g)%Z; [reflexivity|exact Hc].
Qed.
End ShimClaims.

Lemma findAPI_nearest_ancestor_witness :
  Shim.findAPI (Shim.nested 3 lms_window) = Some lms_api.
Proof.
  apply (@findAPI_nearest_ancestor 3 (Shim.nested 3 lms_window) lms_window lms_api).
  - lia.
  - reflexivity.
  - reflexivity.
  - intros j Hj. exists (Shim.nested (3 - j) lms_window).
    destruct j as [|[|[|j]]]; [split; reflexivity ..|lia].
Defined.

Lemma findAPI_hop_limit_witness :
  Shim.findAPI (Shim.nested 501 lms_window) = None.
Proof.
  apply (@findAPI_hop_limit 501 lms_window). lia.
Defined.

Lemma no_api_no_session_witness :
  Shim.init (Shim.Win None None None) Script.initial_state
  = (false, Script.emit [Script.console_log Shim.init_failed] Script.initial_state).
Proof.
  apply (@no_api_no_session (Shim.Win None None None) None true).
  intros w Hr.
  inversion Hr as [v| v p u Hp _| v o u Ho _]; subst;
    [reflexivity|discriminate Hp|discriminate Ho].
Defined.


(** * Leaving the page *)

Section LeaveClaims.
Import Script Timer Shim.

Lemma finish_initialized (st : State) :
  SCORM_isInitialized st = true ->
  finish st
  = emit [console_log (lit "SCORM: Session terminated")]
         (set_initialized false (emit [LMSCommit; LMSFinish] st)).
Proof. intros Hi. unfold finish. now rewrite Hi. Qed.

Lemma finish_uninitialized (st : State) :
  SCORM_isInitialized st = false -> finish st = st.
Proof. intros Hi. unfold finish. now rewrite Hi. Qed.

(** The listener of the page on a session that is over: the timer is
    stopped and nothing is written. *)
Lemma on_beforeunload_uninitialized (x : State) :
  SCORM_isInitialized x = false ->
  on_beforeunload x = (if isTimerRunning x then timer_stopped x else x).
Proof.
  intros Hi. unfold on_beforeunload.
  destruct (isTimerRunning x) eqn:Hr.
  - rewrite (pause_running _ Hr).
    assert (Hs : SCORM_isInitialized (timer_stopped x) = false) by exact Hi.
    now rewrite !(commit_uninitialized _ Hs).
  - rewrite (pause_paused _ Hr). now apply commit_uninitialized.
Qed.

(** X16.  Leaving an initialized page ends the session before the page
    can save its time: [SCORM.finish], put on [window.onbeforeunload] by
    scormapi.js in the head, runs ahead of the listener of the page, so
    the only calls made are LMSCommit and LMSFinish, the listener finds
    the session over and only stops the timer, and neither the session
    time nor the total counted since the last write reaches the LMS. *)
Theorem leaving_writes_no_time (st : State) (stored : Z) :
  SCORM_isInitialized st = true ->
  effects (on_leave st)
  = effects st
    ++ [LMSCommit; LMSFinish; console_log (lit "SCORM: Session terminated")]
    ++ (if isTimerRunning st then [clearInterval] else [])
  /\ last_suspend stored (effects (on_leave st))
     = last_suspend stored (effects st)
  /\ SCORM_isInitialized (on_leave st) = false
  /\ isTimerRunning (on_leave st) = false
  /\ sessionSeconds (on_leave st) = sessionSeconds st
  /\ totalSeconds (on_leave st) = totalSeconds st.
Proof.
  intros Hi. unfold on_leave.
  pose proof (finish_initialized _ Hi) as E1.
  set (x := finish st) in *.
  assert (Ix : SCORM_isInitialized x = false) by (rewrite E1; reflexivity).
  assert (Rx : isTimerRunning x = isTimerRunning st) by (rewrite E1; reflexivity).
  assert (Sx : sessionSeconds x = sessionSeconds st) by (rewrite E1; reflexivity).
  assert (Tx : totalSeconds x = totalSeconds st) by (rewrite E1; reflexivity).
  assert (Fx : effects x
               = effects st
                 ++ [LMSCommit; LMSFinish;
                     console_log (lit "SCORM: Session terminated")]).
  { rewrite E1, effects_emit.
    change (effects (set_initialized false ?y)) with (effects y).
    rewrite effects_emit, <- app_assoc. reflexivity. }
  rewrite (on_beforeunload_uninitialized _ Ix), Rx.
  destruct (isTimerRunning st) eqn:Hr.
  - assert (Is : SCORM_isInitialized (timer_stopped x) = false) by exact Ix.
    rewrite (finish_uninitialized _ Is).
    assert (He : effects (timer_stopped x)
                 = effects st
                   ++ [LMSCommit; LMSFinish;
                       console_log (lit "SCORM: Session terminated")]
                   ++ [clearInterval]).
    { change (effects (timer_stopped x)) with (effects x ++ [clearInterval]).
      rewrite Fx, <- app_assoc. reflexivity. }
    split; [exact He|].
    split; [rewrite He, last_suspend_app; reflexivity|].
    split; [exact Is|]. split; [reflexivity|].
    split; [exact Sx|exact Tx].
  - rewrite (finish_uninitialized _ Ix).
    assert (He : effects x
                 = effects st
                   ++ [LMSCommit; LMSFinish;
                       console_log (lit "SCORM: Session terminated")]
                   ++ []) by (rewrite Fx; reflexivity).
    split; [exact He|].
    split; [rewrite He, last_suspend_app; reflexivity|].
    split; [exact Ix|]. split; [now rewrite Rx|].
    split; [exact Sx|exact Tx].
Qed.
End LeaveClaims.

Lemma leaving_writes_no_time_witness :
  Script.effects (Shim.on_leave (running_state 12 712))
  = [Script.LMSCommit; Script.LMSFinish;
     Script.console_log (lit "SCORM: Session terminated"); Script.clearInterval]
  /\ Timer.last_suspend 700 (Script.effects (Shim.on_leave (running_state 12 712)))
     = 700%Z.
Proof.
  destruct (@leaving_writes_no_time (running_state 12 712) 700 eq_refl)
    as (He & Hl & _).
  split; [exact He|exact Hl].
Defined.


(** * The identifier is safe where it is written *)

Section IdentifierClaims.
Context {U : UnicodeData}.

(** X25.  The sanitized name, which the manifest takes as its identifier
    attribute and the download as its file name, never holds a quote, an
    ampersand, an angle bracket, a slash, a backslash, a colon, an
    asterisk, a question mark, a bar or a dot, whatever the title. *)
Theorem sanitize_filename_safe (name : ustring) :
  Forall (fun c => existsb (N.eqb c) unsafe_chars = false) (sanitize_filename name).
Proof.
  eapply Forall_impl; [|apply (sanitize_chars name)].
  intros c [_ Hw].
  destruct (existsb (N.eqb c) unsafe_chars) eqn:E; [|reflexivity].
  exfalso. apply existsb_exists in E. destruct E as (x & Hx & Hcx).
  apply N.eqb_eq in Hcx. subst x.
  unfold unsafe_chars in Hx. cbn [In] in Hx.
  destruct Hw as [Hw|Hw];
    repeat (destruct Hx as [Hx|Hx];
            [rewrite <- Hx in Hw; vm_compute in Hw; discriminate Hw|]);
    exact Hx.
Qed.
End IdentifierClaims.
